(** * gitload: URL resolver, remote content client and materializer

    A shallow embedding of [src/github-parser.js], [src/github-client.js]
    and [src/downloader.js], and the properties of the natural-language
    specification that concern them.

    Conventions.
    - JavaScript strings are [string]s; a character stands for one code unit.
    - [string|null] fields are [option string]; JavaScript truthiness of such
      a value is [truthy] (neither [null] nor the empty string).
    - A call that may throw returns a [result]; the payload of [Throw] is the
      [message] of the thrown [Error].
    - Network, file system, archive and terminal effects are recorded, in the
      order in which they happen, in a list of [Event]s that is threaded
      through the asynchronous functions; the answers of the outside world
      are given by an [Env] of oracles that may depend on everything that
      happened before. *)

From Stdlib Require Import String Ascii List Bool Arith ZArith Lia.
From Stdlib Require Import DecimalString.
Import ListNotations.

Local Open Scope string_scope.
Local Open Scope list_scope.
Local Open Scope nat_scope.

(** String concatenation, the [+] of JavaScript on strings. *)
Infix "+++" := String.append (right associativity, at level 60).

Set Implicit Arguments.

(* ================================================================== *)
(** * Results of calls that may throw *)

Inductive result (A : Type) : Type :=
| Ok (value : A)
| Throw (message : string).

Arguments Ok {A} value.
Arguments Throw {A} message.

Definition is_ok {A} (r : result A) : bool :=
  match r with Ok _ => true | Throw _ => false end.

(* ================================================================== *)
(** * String primitives of the platform *)

Module JS.

(** [s.length] *)
Definition len (s : string) : nat := String.length s.

(** Truthiness of a string: only the empty string is falsy. *)
Definition nonempty (s : string) : bool :=
  match s with EmptyString => false | String _ _ => true end.

(** Truthiness of a [string|null] (or [string|undefined]) value. *)
Definition truthy (o : option string) : bool :=
  match o with Some s => nonempty s | None => false end.

(** [a || b] on such values, where [b] is a string. *)
Definition or_else (o : option string) (d : string) : string :=
  match o with
  | Some s => if nonempty s then s else d
  | None => d
  end.

(** [n || 0] on an optional number. *)
Definition num_or_zero (o : option nat) : nat :=
  match o with Some n => n | None => 0 end.

(** [s.startsWith(p)] *)
Fixpoint startsWith (s p : string) {struct p} : bool :=
  match p with
  | EmptyString => true
  | String b p' =>
      match s with
      | EmptyString => false
      | String a s' => Ascii.eqb a b && startsWith s' p'
      end
  end.

(** [s.slice(n)] for [0 <= n] *)
Fixpoint slice (n : nat) (s : string) : string :=
  match n with
  | O => s
  | S n' => match s with EmptyString => EmptyString | String _ s' => slice n' s' end
  end.

(** [s.includes(sub)] *)
Fixpoint includes (s sub : string) : bool :=
  startsWith s sub ||
  match s with
  | EmptyString => false
  | String _ s' => includes s' sub
  end.

(** White space as [String.prototype.trim] sees it, among the code units
    below 256: TAB, LF, VT, FF, CR, SPACE and NBSP. *)
Definition is_space (c : ascii) : bool :=
  let n := nat_of_ascii c in
  ((9 <=? n) && (n <=? 13)) || (n =? 32) || (n =? 160).

Fixpoint trimStart (s : string) : string :=
  match s with
  | EmptyString => EmptyString
  | String c s' => if is_space c then trimStart s' else s
  end.

Fixpoint trimEnd (s : string) : string :=
  match s with
  | EmptyString => EmptyString
  | String c s' =>
      match trimEnd s' with
      | EmptyString => if is_space c then EmptyString else String c EmptyString
      | r => String c r
      end
  end.

(** [s.trim()] *)
Definition trim (s : string) : string := trimEnd (trimStart s).

(** [s.replace(/\/+$/, '')]: drop every trailing slash. *)
Fixpoint stripTrailingSlashes (s : string) : string :=
  match s with
  | EmptyString => EmptyString
  | String c s' =>
      match stripTrailingSlashes s' with
      | EmptyString => if Ascii.eqb c "/" then EmptyString else String c EmptyString
      | r => String c r
      end
  end.

(** [s.replace(/\.git$/, '')]: the pattern is anchored at the end of the
    string, so at most the last four code units go. *)
Fixpoint stripGitSuffix (s : string) : string :=
  match s with
  | EmptyString => EmptyString
  | String c s' => if String.eqb s ".git" then EmptyString else String c (stripGitSuffix s')
  end.

(** [s.split('/')]: never empty, keeps empty pieces. *)
Fixpoint split (s : string) : list string :=
  match s with
  | EmptyString => [EmptyString]
  | String c s' =>
      if Ascii.eqb c "/" then EmptyString :: split s'
      else match split s' with
           | x :: xs => String c x :: xs
           | [] => [String c EmptyString]
           end
  end.

(** [xs.filter(Boolean)] on an array of strings *)
Definition filterBoolean (xs : list string) : list string := filter nonempty xs.

(** [xs.join('/')] *)
Fixpoint join (xs : list string) : string :=
  match xs with
  | [] => EmptyString
  | [x] => x
  | x :: rest => x +++ "/" +++ join rest
  end.

(** [xs.slice(n)] on arrays *)
Definition sliceArr {A} (n : nat) (xs : list A) : list A := skipn n xs.

(** [xs.slice(0, n)] on arrays *)
Definition takeArr {A} (n : nat) (xs : list A) : list A := firstn n xs.

(** Decimal rendering of a number inside a template literal. *)
Definition showNat (n : nat) : string := NilEmpty.string_of_uint (Nat.to_uint n).

End JS.

(** ** [path.basename] of Node (POSIX flavour, one argument)

    The platform function scans the path from its end: the slashes it meets
    first are skipped, and the result is the run of code units between them
    and the next slash. *)

Definition isSlash (c : ascii) : bool := Ascii.eqb c "/".

Fixpoint dropWhile {A} (f : A -> bool) (l : list A) : list A :=
  match l with
  | [] => []
  | x :: l' => if f x then dropWhile f l' else l
  end.

Fixpoint takeWhile {A} (f : A -> bool) (l : list A) : list A :=
  match l with
  | [] => []
  | x :: l' => if f x then x :: takeWhile f l' else []
  end.

Definition basename (p : string) : string :=
  string_of_list_ascii
    (rev (takeWhile (fun c => negb (isSlash c))
            (dropWhile isSlash (rev (list_ascii_of_string p))))).

(* ================================================================== *)
(** * Data model *)

(** ['tree'|'blob'|'root'] *)
Inductive PathType : Type := Root | Tree | Blob.

Definition PathType_eqb (a b : PathType) : bool :=
  match a, b with
  | Root, Root | Tree, Tree | Blob, Blob => true
  | _, _ => false
  end.

(** The [ParsedGitHubUrl] of [github-parser.js]. *)
Record ParsedGitHubUrl : Type := {
  owner : string;
  repo : string;
  ref : option string;
  path : option string;
  type : PathType
}.

(** The two properties of a platform [URL] object that the parser reads. *)
Record URLObject : Type := {
  hostname : string;
  pathname : string
}.

(** The [GitHubFile] of [github-client.js]. *)
Record GitHubFile : Type := {
  f_path : string;
  downloadUrl : string;
  size : nat;
  sha : option string
}.

(* ================================================================== *)
(** * [github-parser.js] *)

Section Parser.

(** The platform's [new URL(s)]; [None] when the constructor throws. *)
Variable URL : string -> option URLObject.

(** The first two statements of [parseGitHubUrl]. *)
Definition cleanUrl (url : string) : string :=
  JS.stripTrailingSlashes (JS.trim url).

(** [urlObj.pathname.split('/').filter(Boolean)] *)
Definition pathPartsOf (urlObj : URLObject) : list string :=
  JS.filterBoolean (JS.split (pathname urlObj)).

Definition parseGitHubUrl (url : string) : result ParsedGitHubUrl :=
  let url := JS.trim url in
  let url := JS.stripTrailingSlashes url in
  match URL url with
  | None => Throw "Invalid URL format"
  | Some urlObj =>
      if negb (JS.includes (hostname urlObj) "github.com") then
        Throw "URL must be a GitHub URL (github.com)"
      else
        let pathParts := JS.filterBoolean (JS.split (pathname urlObj)) in
        if length pathParts <? 2 then
          Throw "URL must include owner and repository (e.g., github.com/owner/repo)"
        else
          let owner := nth 0 pathParts "" in
          let repo := JS.stripGitSuffix (nth 1 pathParts "") in
          if length pathParts =? 2 then
            Ok {| owner := owner; repo := repo; ref := None; path := None; type := Root |}
          else
            let pathType := nth 2 pathParts "" in
            if negb (String.eqb pathType "tree") && negb (String.eqb pathType "blob") then
              Throw ("Unsupported URL format. Expected /tree/ or /blob/ in path. Got: " +++ pathType)
            else if length pathParts <? 4 then
              Throw "URL must include a branch/ref after /tree/ or /blob/"
            else
              let ref := nth 3 pathParts "" in
              let joined := JS.join (JS.sliceArr 4 pathParts) in
              let path := if JS.nonempty joined then Some joined else None in
              Ok {| owner := owner; repo := repo; ref := Some ref; path := path;
                    type := if String.eqb pathType "tree" then Tree else Blob |}
  end.

End Parser.

(** [encodeURIComponent] is a platform function that throws on a lone
    surrogate; the client and the parser helpers take it as a parameter. *)

Section UrlBuilders.

Variable encodeURIComponent : string -> result string.

Definition buildContentsApiUrl (parsed : ParsedGitHubUrl) : result string :=
  let url := "https://api.github.com/repos/" +++ owner parsed +++ "/" +++ repo parsed +++ "/contents" in
  let url := if JS.truthy (path parsed) then url +++ "/" +++ JS.or_else (path parsed) "" else url in
  if JS.truthy (ref parsed) then
    match encodeURIComponent (JS.or_else (ref parsed) "") with
    | Ok e => Ok (url +++ "?ref=" +++ e)
    | Throw m => Throw m
    end
  else Ok url.

End UrlBuilders.

Definition buildTreeApiUrl (parsed : ParsedGitHubUrl) : string :=
  let ref := JS.or_else (ref parsed) "HEAD" in
  "https://api.github.com/repos/" +++ owner parsed +++ "/" +++ repo parsed
    +++ "/git/trees/" +++ ref +++ "?recursive=1".

Definition getRawUrl (parsed : ParsedGitHubUrl) (filePath : string) : string :=
  let ref := JS.or_else (ref parsed) "HEAD" in
  "https://raw.githubusercontent.com/" +++ owner parsed +++ "/" +++ repo parsed
    +++ "/" +++ ref +++ "/" +++ filePath.

(* ================================================================== *)
(** * A reference model of the platform's URL constructor

    [URL_model] covers absolute [http] and [https] URLs whose authority is a
    plain host name (letters, digits, dots and hyphens) and whose path needs
    neither percent-encoding nor dot-segment removal: on those it yields the
    [hostname] and [pathname] the platform yields.  A string with no scheme
    is rejected, as the platform rejects it in the absence of a base URL.
    Everything else is outside its domain.  The parser itself is stated over
    an arbitrary constructor; the model serves the concrete scenarios. *)

Module UrlModel.

Fixpoint breakAt (f : ascii -> bool) (s : string) : string * string :=
  match s with
  | EmptyString => (EmptyString, EmptyString)
  | String c s' =>
      if f c then (EmptyString, s)
      else let '(a, b) := breakAt f s' in (String c a, b)
  end.

Fixpoint forallb_str (f : ascii -> bool) (s : string) : bool :=
  match s with
  | EmptyString => true
  | String c s' => f c && forallb_str f s'
  end.

Fixpoint map_str (f : ascii -> ascii) (s : string) : string :=
  match s with
  | EmptyString => EmptyString
  | String c s' => String (f c) (map_str f s')
  end.

Definition between (lo hi : nat) (c : ascii) : bool :=
  let n := nat_of_ascii c in (lo <=? n) && (n <=? hi).

Definition isUpper := between 65 90.
Definition isLower := between 97 122.
Definition isDigit := between 48 57.

Definition toLower (c : ascii) : ascii :=
  if isUpper c then ascii_of_nat (nat_of_ascii c + 32) else c.

Definition isHostChar (c : ascii) : bool :=
  isUpper c || isLower c || isDigit c || Ascii.eqb c "." || Ascii.eqb c "-".

Definition endsAuthority (c : ascii) : bool :=
  Ascii.eqb c "/" || Ascii.eqb c "?" || Ascii.eqb c "#".

Definition endsPath (c : ascii) : bool :=
  Ascii.eqb c "?" || Ascii.eqb c "#".

Definition URL_model (s : string) : option URLObject :=
  let '(scheme, rest) := breakAt (fun c => Ascii.eqb c ":") s in
  let scheme := map_str toLower scheme in
  if negb (String.eqb scheme "http" || String.eqb scheme "https") then None
  else if negb (JS.startsWith rest "://") then None
  else
    let '(host, rest) := breakAt endsAuthority (JS.slice 3 rest) in
    if negb (JS.nonempty host && forallb_str isHostChar host) then None
    else
      let '(p, _) := breakAt endsPath rest in
      Some {| hostname := map_str toLower host;
              pathname := if JS.nonempty p then p else "/" |}.

End UrlModel.

Import UrlModel.

(* ================================================================== *)
(** * The outside world *)

Definition Buffer : Type := list Byte.byte.

(** One entry of the [tree] array of a Git Trees API answer. *)
Record TreeItem : Type := {
  item_type : string;
  item_path : string;
  item_size : option nat;
  item_sha : option string
}.

(** The fields that the client reads in the JSON answers of the API. *)
Record ApiData : Type := {
  default_branch : option string;
  data_size : option nat;
  data_sha : option string;
  tree : option (list TreeItem)
}.

(** What the client reads of the platform's [Response]. *)
Record Response : Type := {
  ok : bool;
  status : nat;
  statusText : string;
  json : result ApiData;
  arrayBuffer : result Buffer
}.

(** Lines that the downloader prints.  The rendering (colours, bar, spinner
    glyph, cursor movement) is left out; the printed numbers are kept. *)
Inductive Output : Type :=
| OutDownloading                         (* 'Downloading files...' *)
| OutCreatingZip                         (* 'Downloading and creating ZIP...' *)
| OutProgress (spinner current total downloadedBytes : nat) (fileName : string)
                                         (* what [updateProgress] prints for [fileName] *)
| OutFailedCount (n : nat)               (* '<n> file(s) failed to download:' *)
| OutFailedFile (file error : string)    (* '  * <file>: <error>' *)
| OutMore (n : nat)                      (* '  ... and <n> more' *)
| OutDownloaded (successCount : Z) (outputDir : string)
| OutCreatedZip (successCount : Z) (zipPath : string).

Inductive Event : Type :=
| EvFetch (url : string) (r : result ApiData)        (* GitHubClient.fetch *)
| EvDownload (url : string) (r : result Buffer)      (* GitHubClient.downloadFile *)
| EvMkdir (dir : string) (r : result unit)           (* fs mkdir, recursive *)
| EvWriteFile (file : string) (content : Buffer) (r : result unit)
| EvCreateArchive (zipPath : string)                 (* createWriteStream, archiver, pipe *)
| EvAppend (content : Buffer) (name : string)        (* archive.append *)
| EvFinalize                                         (* archive.finalize *)
| EvOnProgress (count : nat)                         (* the caller's callback *)
| EvOut (o : Output)
| EvAppendError (content : Buffer) (name : string) (message : string)
                                                     (* archive.append threw *)
| EvUncaught (message : string).                     (* 'error' without a listener *)

Definition World : Type := list Event.

(** The answers of the network, of the file system and of the archive with
    its output stream, each of which may depend on the whole history.
    [Throw] stands for a rejected promise or a thrown exception.

    [createWriteStream] opens its file later, and the archive is written to
    it while the loop runs: [stream_error] tells whether, by the time the
    function is suspended in an [await], the stream (or the archive piped
    into it) has raised an ['error'], be it that the file could not be
    opened or that a write failed. [archive_append] is the call of
    [archive.append], which throws when the archive refuses the entry;
    [archive_finalize] is the promise of [archive.finalize()];
    [stream_close] is the ['close'] or the ['error'] that the output stream
    raises once the function listens to it. *)
Record Env : Type := {
  http_get : World -> string -> result Response;
  fs_mkdir : World -> string -> result unit;
  fs_writeFile : World -> string -> Buffer -> result unit;
  stream_error : World -> option string;
  archive_append : World -> Buffer -> string -> result unit;
  archive_finalize : World -> result unit;
  stream_close : World -> result unit
}.

(** How an asynchronous function ends: its promise is fulfilled or
    rejected, or the process dies before on an ['error'] event that
    nobody listens to. *)
Inductive Ending (A : Type) : Type :=
| Fulfilled (a : A)
| Rejected (message : string)
| Died (message : string).
Arguments Fulfilled {A} a.
Arguments Rejected {A} message.
Arguments Died {A} message.

(** ** Asynchronous functions: state passing over the history *)

Definition M (A : Type) : Type := World -> A * World.

Definition ret {A} (a : A) : M A := fun w => (a, w).

Definition bind {A B} (m : M A) (k : A -> M B) : M B :=
  fun w => let '(a, w') := m w in k a w'.

Definition emit (e : Event) : M unit := fun w => (tt, w ++ [e]).

Declare Scope io_scope.
Delimit Scope io_scope with io.
Notation "x <- m ;; k" := (bind m (fun x => k))
  (at level 61, m at next level, right associativity) : io_scope.
Notation "m ;;; k" := (bind m (fun _ => k))
  (at level 61, right associativity) : io_scope.
Notation "' pat <- m ;; k" := (bind m (fun x => match x with pat => k end))
  (at level 61, pat pattern, m at next level, right associativity) : io_scope.
Local Open Scope io_scope.

(* ================================================================== *)
(** * [github-client.js] *)

Section Client.

Variable encodeURIComponent : string -> result string.
Variable env : Env.

(** Outcome of [GitHubClient.fetch(url)] in a given history. *)
Definition fetchOutcome (w : World) (url : string) : result ApiData :=
  match http_get env w url with
  | Throw m => Throw m
  | Ok response =>
      if negb (ok response) then
        Throw ("GitHub API error: " +++ JS.showNat (status response) +++ " " +++ statusText response)
      else json response
  end.

Definition fetch (url : string) : M (result ApiData) :=
  fun w => let r := fetchOutcome w url in (r, w ++ [EvFetch url r]).

(** Outcome of [GitHubClient.downloadFile(url)] in a given history. *)
Definition downloadOutcome (w : World) (url : string) : result Buffer :=
  match http_get env w url with
  | Throw m => Throw m
  | Ok response =>
      if negb (ok response) then
        Throw ("Failed to download: " +++ JS.showNat (status response) +++ " " +++ statusText response)
      else arrayBuffer response
  end.

Definition downloadFile (url : string) : M (result Buffer) :=
  fun w => let r := downloadOutcome w url in (r, w ++ [EvDownload url r]).

Definition defaultBranchUrl (owner repo : string) : string :=
  "https://api.github.com/repos/" +++ owner +++ "/" +++ repo.

Definition getDefaultBranch (owner repo : string) : M (result (option string)) :=
  data <- fetch (defaultBranchUrl owner repo) ;;
  ret match data with
      | Ok d => Ok (default_branch d)
      | Throw m => Throw m
      end.

(** [onProgress?.(count)]; [onProgress] tells whether a callback was given. *)
Definition callOnProgress (onProgress : bool) (count : nat) : M unit :=
  if onProgress then emit (EvOnProgress count) else ret tt.

(** The object literal pushed by [getTreeContents]. *)
Definition fileOfItem (parsed : ParsedGitHubUrl) (item : TreeItem) : GitHubFile :=
  {| f_path := item_path item;
     downloadUrl := getRawUrl parsed (item_path item);
     size := JS.num_or_zero (item_size item);
     sha := item_sha item |}.

(** [item.path === parsed.path] *)
Definition pathIs (p : string) (o : option string) : bool :=
  match o with Some q => String.eqb p q | None => false end.

(** The [for] loop of [getTreeContents], with its [continue]s and its
    [break]; [files] and [count] are the loop's two variables. *)
Fixpoint treeLoop (parsed : ParsedGitHubUrl) (onProgress : bool) (pathPrefix : string)
    (items : list TreeItem) (files : list GitHubFile) (count : nat) : M (list GitHubFile) :=
  match items with
  | [] => ret files
  | item :: rest =>
      if negb (String.eqb (item_type item) "blob") then
        treeLoop parsed onProgress pathPrefix rest files count
      else if JS.truthy (path parsed) then
        if pathIs (item_path item) (path parsed) then
          let files := files ++ [fileOfItem parsed item] in
          let count := S count in
          callOnProgress onProgress count ;;;
          ret files
        else if negb (JS.startsWith (item_path item) pathPrefix) then
          treeLoop parsed onProgress pathPrefix rest files count
        else
          let files := files ++ [fileOfItem parsed item] in
          let count := S count in
          callOnProgress onProgress count ;;;
          treeLoop parsed onProgress pathPrefix rest files count
      else
        let files := files ++ [fileOfItem parsed item] in
        let count := S count in
        callOnProgress onProgress count ;;;
        treeLoop parsed onProgress pathPrefix rest files count
  end.

Definition pathPrefixOf (parsed : ParsedGitHubUrl) : string :=
  if JS.truthy (path parsed) then JS.or_else (path parsed) "" +++ "/" else "".

Definition getTreeContents (parsed : ParsedGitHubUrl) (onProgress : bool)
    : M (result (list GitHubFile)) :=
  let treeUrl := buildTreeApiUrl parsed in
  data <- fetch treeUrl ;;
  match data with
  | Throw m => ret (Throw m)
  | Ok data =>
      match tree data with
      | None => ret (Throw "Invalid response from GitHub API")
      | Some items =>
          files <- treeLoop parsed onProgress (pathPrefixOf parsed) items [] 0 ;;
          ret (Ok files)
      end
  end.

(** The [try]/[catch] of [getContents]: the enrichment of the single file. *)
Definition enrich (parsed : ParsedGitHubUrl) (file : GitHubFile) : M GitHubFile :=
  match buildContentsApiUrl encodeURIComponent parsed with
  | Throw _ => ret file
  | Ok url =>
      data <- fetch url ;;
      ret match data with
          | Throw _ => file
          | Ok data =>
              {| f_path := f_path file;
                 downloadUrl := downloadUrl file;
                 size := JS.num_or_zero (data_size data);
                 sha := Some (JS.or_else (data_sha data) "") |}
          end
  end.

Definition withRef (parsed : ParsedGitHubUrl) (r : option string) : ParsedGitHubUrl :=
  {| owner := owner parsed; repo := repo parsed; ref := r;
     path := path parsed; type := type parsed |}.

(** The second half of [getContents], once [parsed.ref] is settled. *)
Definition getContentsWithRef (parsed : ParsedGitHubUrl) (onProgress : bool)
    : M (result (list GitHubFile)) :=
  if PathType_eqb (type parsed) Blob && JS.truthy (path parsed) then
    let file := {| f_path := JS.or_else (path parsed) "";
                   downloadUrl := getRawUrl parsed (JS.or_else (path parsed) "");
                   size := 0;
                   sha := Some "" |} in
    file <- enrich parsed file ;;
    callOnProgress onProgress 1 ;;;
    ret (Ok [file])
  else
    getTreeContents parsed onProgress.

(** [getContents] assigns to [parsed.ref]; the object as the function
    leaves it is returned next to the result. *)
Definition getContents (parsed : ParsedGitHubUrl) (onProgress : bool)
    : M (result (list GitHubFile) * ParsedGitHubUrl) :=
  if negb (JS.truthy (ref parsed)) then
    branch <- getDefaultBranch (owner parsed) (repo parsed) ;;
    match branch with
    | Throw m => ret (Throw m, parsed)
    | Ok b =>
        let parsed := withRef parsed b in
        files <- getContentsWithRef parsed onProgress ;;
        ret (files, parsed)
    end
  else
    files <- getContentsWithRef parsed onProgress ;;
    ret (files, parsed).

End Client.

(* ================================================================== *)
(** * [downloader.js] *)

Definition getRelativePath (filePath : string) (parsed : ParsedGitHubUrl) : string :=
  let basePath := JS.or_else (path parsed) "" +++ "/" in
  (* the first [if] returns only when both of its tests pass *)
  if JS.truthy (path parsed) && PathType_eqb (type parsed) Tree
     && JS.startsWith filePath basePath then
    JS.slice (JS.len basePath) filePath
  else if PathType_eqb (type parsed) Blob && JS.truthy (path parsed) then
    basename filePath
  else
    filePath.

(** One element of the [errors] array. *)
Record DownloadError : Type := {
  err_file : string;
  err_error : string
}.

(** The counters that [updateProgress] closes over. *)
Record Progress : Type := {
  current : nat;
  downloadedBytes : nat;
  spinnerIndex : nat
}.

(** What the materializer knows when it prints its last line.  The source
    functions return nothing; the model returns their locals. *)
Record Summary : Type := {
  total : nat;
  attempted : nat;
  errors : list DownloadError;
  successCount : Z
}.

Section Downloader.

(** [path.join] and [path.dirname] of the platform. *)
Variable join : string -> string -> string.
Variable dirname : string -> string.
Variable env : Env.

Definition mkdir (dir : string) : M (result unit) :=
  fun w => let r := fs_mkdir env w dir in (r, w ++ [EvMkdir dir r]).

Definition writeFile (file : string) (content : Buffer) : M (result unit) :=
  fun w => let r := fs_writeFile env w file content in (r, w ++ [EvWriteFile file content r]).

Definition updateProgress (total : nat) (st : Progress) (fileName : string) (bytes : nat)
    : M Progress :=
  let current := S (current st) in
  let downloadedBytes := downloadedBytes st + bytes in
  let spinner := spinnerIndex st mod 10 in
  let spinnerIndex := S (spinnerIndex st) in
  emit (EvOut (OutProgress spinner current total downloadedBytes fileName)) ;;;
  ret {| current := current; downloadedBytes := downloadedBytes; spinnerIndex := spinnerIndex |}.

(** The body of the [try] block of [downloadFiles], up to the write. *)
Definition fetchAndWrite (file : GitHubFile) (outputPath : string) : M (result Buffer) :=
  made <- mkdir (dirname outputPath) ;;
  match made with
  | Throw m => ret (Throw m)
  | Ok _ =>
      content <- downloadFile env (downloadUrl file) ;;
      match content with
      | Throw m => ret (Throw m)
      | Ok content =>
          written <- writeFile outputPath content ;;
          match written with
          | Throw m => ret (Throw m)
          | Ok _ => ret (Ok content)
          end
      end
  end.

(** The [for] loop of [downloadFiles]. *)
Fixpoint filesLoop (parsed : ParsedGitHubUrl) (outputDir : string) (isSingleFileWithPath : bool)
    (total : nat) (files : list GitHubFile) (st : Progress) (errors : list DownloadError)
    : M (Progress * list DownloadError) :=
  match files with
  | [] => ret (st, errors)
  | file :: rest =>
      let relativePath := getRelativePath (f_path file) parsed in
      let outputPath := if isSingleFileWithPath then outputDir else join outputDir relativePath in
      outcome <- fetchAndWrite file outputPath ;;
      match outcome with
      | Ok content =>
          st <- updateProgress total st relativePath (length content) ;;
          filesLoop parsed outputDir isSingleFileWithPath total rest st errors
      | Throw message =>
          let errors := errors ++ [{| err_file := relativePath; err_error := message |}] in
          st <- updateProgress total st relativePath 0 ;;
          filesLoop parsed outputDir isSingleFileWithPath total rest st errors
      end
  end.

(** [for (const { file, error } of errors.slice(0, 5)) console.log(...)] *)
Fixpoint printErrors (errs : list DownloadError) : M unit :=
  match errs with
  | [] => ret tt
  | e :: rest => emit (EvOut (OutFailedFile (err_file e) (err_error e))) ;;; printErrors rest
  end.

(** The report of the failures, the same in both functions. *)
Definition reportErrors (errors : list DownloadError) : M unit :=
  if 0 <? length errors then
    emit (EvOut (OutFailedCount (length errors))) ;;;
    printErrors (JS.takeArr 5 errors) ;;;
    if 5 <? length errors then emit (EvOut (OutMore (length errors - 5))) else ret tt
  else ret tt.

Definition initialProgress : Progress :=
  {| current := 0; downloadedBytes := 0; spinnerIndex := 0 |}.

Definition downloadFiles (files : list GitHubFile) (outputDir : string)
    (parsed : ParsedGitHubUrl) (outputIsFilePath : bool) : M Summary :=
  let total := length files in
  let isSingleFileWithPath :=
    PathType_eqb (type parsed) Blob && (length files =? 1) && outputIsFilePath in
  emit (EvOut OutDownloading) ;;;
  '(st, errors) <- filesLoop parsed outputDir isSingleFileWithPath total files initialProgress [] ;;
  reportErrors errors ;;;
  let successCount := (Z.of_nat total - Z.of_nat (length errors))%Z in
  emit (EvOut (OutDownloaded successCount outputDir)) ;;;
  ret {| total := total; attempted := current st; errors := errors;
         successCount := successCount |}.

(** [archive.append(content, { name })]: the entry is queued, or the call
    throws. *)
Definition append (content : Buffer) (name : string) : M (result unit) :=
  fun w =>
    match archive_append env w content name with
    | Ok _ => (Ok tt, w ++ [EvAppend content name])
    | Throw m => (Throw m, w ++ [EvAppendError content name m])
    end.

(** An [await] between [createWriteStream] and the [output.on('error', ...)]
    that follows [finalize]: an ['error'] of the stream that comes up while
    the function is suspended finds no listener and ends the process; what
    was awaited has no outcome. *)
Definition unlistened : M (option string) :=
  fun w =>
    match stream_error env w with
    | Some m => (Some m, w ++ [EvUncaught m])
    | None => (None, w)
    end.

(** The [for] loop of [downloadToZip]. *)
Fixpoint zipLoop (parsed : ParsedGitHubUrl) (total : nat) (files : list GitHubFile)
    (st : Progress) (errors : list DownloadError)
    : M (Ending (Progress * list DownloadError)) :=
  match files with
  | [] => ret (Fulfilled (st, errors))
  | file :: rest =>
      let relativePath := getRelativePath (f_path file) parsed in
      (* await client.downloadFile(file.downloadUrl) *)
      died <- unlistened ;;
      match died with
      | Some m => ret (Died m)
      | None =>
          content <- downloadFile env (downloadUrl file) ;;
          match content with
          | Ok content =>
              appended <- append content relativePath ;;
              match appended with
              | Ok _ =>
                  st <- updateProgress total st relativePath (length content) ;;
                  zipLoop parsed total rest st errors
              | Throw message =>
                  let errors :=
                    errors ++ [{| err_file := relativePath; err_error := message |}] in
                  st <- updateProgress total st relativePath 0 ;;
                  zipLoop parsed total rest st errors
              end
          | Throw message =>
              let errors := errors ++ [{| err_file := relativePath; err_error := message |}] in
              st <- updateProgress total st relativePath 0 ;;
              zipLoop parsed total rest st errors
          end
      end
  end.

(** [dirname(zipPath) || '.'] *)
Definition zipDir (zipPath : string) : string :=
  if JS.nonempty (dirname zipPath) then dirname zipPath else ".".

(** The promise of [archive.finalize()]. *)
Definition finalizeOutcome : M (result unit) := fun w => (archive_finalize env w, w).

(** [new Promise((resolve, reject) => { output.on('close', resolve);
    output.on('error', reject); })] *)
Definition closeOutcome : M (result unit) := fun w => (stream_close env w, w).

(** The [mkdir] is awaited outside any [try]. [EvCreateArchive] stands for
    [createWriteStream], [archiver] and [pipe], which return at once;
    [EvFinalize] for the call of [archive.finalize()]. *)
Definition downloadToZip (files : list GitHubFile) (zipPath : string)
    (parsed : ParsedGitHubUrl) : M (Ending Summary) :=
  let total := length files in
  made <- mkdir (zipDir zipPath) ;;
  match made with
  | Throw m => ret (Rejected m)
  | Ok _ =>
      emit (EvOut OutCreatingZip) ;;;
      emit (EvCreateArchive zipPath) ;;;
      looped <- zipLoop parsed total files initialProgress [] ;;
      match looped with
      | Died m => ret (Died m)
      | Rejected m => ret (Rejected m)
      | Fulfilled (st, errors) =>
          (* await archive.finalize() *)
          emit EvFinalize ;;;
          died <- unlistened ;;
          match died with
          | Some m => ret (Died m)
          | None =>
              finalized <- finalizeOutcome ;;
              match finalized with
              | Throw m => ret (Rejected m)
              | Ok _ =>
                  closed <- closeOutcome ;;
                  match closed with
                  | Throw m => ret (Rejected m)
                  | Ok _ =>
                      reportErrors errors ;;;
                      let successCount :=
                        (Z.of_nat total - Z.of_nat (length errors))%Z in
                      emit (EvOut (OutCreatedZip successCount zipPath)) ;;;
                      ret (Fulfilled {| total := total; attempted := current st;
                                        errors := errors; successCount := successCount |})
                  end
              end
          end
      end
  end.

End Downloader.

(** A call that ends in a thrown error, whatever its message. *)
Definition Fails {A} (r : result A) : Prop := exists m, r = Throw m.

(* ================================================================== *)
(** * Reading a history *)

(** URLs requested through [GitHubClient.fetch]. *)
Fixpoint fetchedUrls (tr : list Event) : list string :=
  match tr with
  | [] => []
  | EvFetch url _ :: tr' => url :: fetchedUrls tr'
  | _ :: tr' => fetchedUrls tr'
  end.

(** Calls of [GitHubClient.downloadFile] with their outcomes. *)
Fixpoint downloads (tr : list Event) : list (string * result Buffer) :=
  match tr with
  | [] => []
  | EvDownload url r :: tr' => (url, r) :: downloads tr'
  | _ :: tr' => downloads tr'
  end.

(** Directories whose creation was requested. *)
Fixpoint mkdirs (tr : list Event) : list string :=
  match tr with
  | [] => []
  | EvMkdir d _ :: tr' => d :: mkdirs tr'
  | _ :: tr' => mkdirs tr'
  end.

(** Entries queued in the archive: name and content. *)
Fixpoint appends (tr : list Event) : list (string * Buffer) :=
  match tr with
  | [] => []
  | EvAppend c name :: tr' => (name, c) :: appends tr'
  | _ :: tr' => appends tr'
  end.

(** Number of calls of [archive.finalize]. *)
Fixpoint finalizes (tr : list Event) : nat :=
  match tr with
  | [] => 0
  | EvFinalize :: tr' => S (finalizes tr')
  | _ :: tr' => finalizes tr'
  end.

(** File names passed to [updateProgress], one per attempted file. *)
Fixpoint attempts (tr : list Event) : list string :=
  match tr with
  | [] => []
  | EvOut (OutProgress _ _ _ _ name) :: tr' => name :: attempts tr'
  | _ :: tr' => attempts tr'
  end.

Definition isFailure (e : Event) : bool :=
  match e with
  | EvDownload _ (Throw _) => true
  | EvMkdir _ (Throw _) => true
  | EvWriteFile _ _ (Throw _) => true
  | EvAppendError _ _ _ => true
  | _ => false
  end.

(** Number of download, directory, write and append operations that failed. *)
Fixpoint failures (tr : list Event) : nat :=
  match tr with
  | [] => 0
  | e :: tr' => (if isFailure e then 1 else 0) + failures tr'
  end.

(** The entries that the archive must hold, given the files and the
    outcomes of their downloads. *)
Fixpoint expectedEntries (parsed : ParsedGitHubUrl)
    (files : list GitHubFile) (outcomes : list (result Buffer)) : list (string * Buffer) :=
  match files, outcomes with
  | f :: files', Ok c :: outcomes' =>
      (getRelativePath (f_path f) parsed, c) :: expectedEntries parsed files' outcomes'
  | _ :: files', Throw _ :: outcomes' => expectedEntries parsed files' outcomes'
  | _, _ => []
  end.

(** ** What the tree loop keeps *)

Definition isBlobItem (item : TreeItem) : bool := String.eqb (item_type item) "blob".

(** A file entry under [p + '/']. *)
Definition underPath (p : string) (item : TreeItem) : bool :=
  isBlobItem item && JS.startsWith (item_path item) (p +++ "/").

(** A file entry whose path is [p] itself. *)
Definition exactlyAt (p : string) (item : TreeItem) : bool :=
  isBlobItem item && String.eqb (item_path item) p.

(** The entries that [treeLoop] turns into files, in order. *)
Fixpoint kept (parsed : ParsedGitHubUrl) (pathPrefix : string) (items : list TreeItem)
    : list TreeItem :=
  match items with
  | [] => []
  | item :: rest =>
      if negb (isBlobItem item) then kept parsed pathPrefix rest
      else if JS.truthy (path parsed) then
        if pathIs (item_path item) (path parsed) then [item]
        else if negb (JS.startsWith (item_path item) pathPrefix) then kept parsed pathPrefix rest
        else item :: kept parsed pathPrefix rest
      else item :: kept parsed pathPrefix rest
  end.

(** [EvOnProgress (count + 1)], ..., [EvOnProgress (count + n)], when a
    callback was given. *)
Fixpoint progressEvents (onProgress : bool) (count n : nat) : list Event :=
  match n with
  | O => []
  | S n' => (if onProgress then [EvOnProgress (S count)] else [])
            ++ progressEvents onProgress (S count) n'
  end.

(* ================================================================== *)
(** * Concrete worlds for the scenarios *)

Module Scenario.

Definition fileItem (p : string) : TreeItem :=
  {| item_type := "blob"; item_path := p; item_size := Some 1; item_sha := Some "0a" |}.

Definition dirItem (p : string) : TreeItem :=
  {| item_type := "tree"; item_path := p; item_size := None; item_sha := Some "0b" |}.

Definition listingData (items : list TreeItem) : ApiData :=
  {| default_branch := Some "main"; data_size := None; data_sha := None;
     tree := Some items |}.

Definition okResponse (d : ApiData) (body : Buffer) : Response :=
  {| ok := true; status := 200; statusText := "OK"; json := Ok d; arrayBuffer := Ok body |}.

Definition notFound : Response :=
  {| ok := false; status := 404; statusText := "Not Found";
     json := Throw "Unexpected end of JSON input"; arrayBuffer := Ok [] |}.

(** Every request is answered with the listing; the disk works. *)
Definition listingEnv (items : list TreeItem) : Env :=
  {| http_get := fun _ _ => Ok (okResponse (listingData items) []);
     fs_mkdir := fun _ _ => Ok tt;
     fs_writeFile := fun _ _ _ => Ok tt;
     stream_error := fun _ => None;
     archive_append := fun _ _ _ => Ok tt;
     archive_finalize := fun _ => Ok tt;
     stream_close := fun _ => Ok tt |}.

(** Every request is answered with 404; the disk works. *)
Definition offlineEnv : Env :=
  {| http_get := fun _ _ => Ok notFound;
     fs_mkdir := fun _ _ => Ok tt;
     fs_writeFile := fun _ _ _ => Ok tt;
     stream_error := fun _ => None;
     archive_append := fun _ _ _ => Ok tt;
     archive_finalize := fun _ => Ok tt;
     stream_close := fun _ => Ok tt |}.

(** The download of [bad] fails, every other one yields one byte. *)
Definition oneBadEnv (bad : string) : Env :=
  {| http_get := fun _ url =>
       if String.eqb url bad then Ok notFound
       else Ok (okResponse (listingData []) [Byte.x2a]);
     fs_mkdir := fun _ _ => Ok tt;
     fs_writeFile := fun _ _ _ => Ok tt;
     stream_error := fun _ => None;
     archive_append := fun _ _ _ => Ok tt;
     archive_finalize := fun _ => Ok tt;
     stream_close := fun _ => Ok tt |}.

Definition encodePlain (s : string) : result string := Ok s.

Definition joinPlain (a b : string) : string := a +++ "/" +++ b.

Definition dirnamePlain (p : string) : string := ".".

End Scenario.

(** The address of [https://github.com/o/r/tree/main/src]. *)
Definition address_o_r_main_src : ParsedGitHubUrl :=
  {| owner := "o"; repo := "r"; ref := Some "main"; path := Some "src"; type := Tree |}.

(** The address of [https://github.com/o/r/blob/main]. *)
Definition address_o_r_blob_main : ParsedGitHubUrl :=
  {| owner := "o"; repo := "r"; ref := Some "main"; path := None; type := Blob |}.

(** The enrichment of a single file fails when its URL cannot be built or
    when the request for it fails. *)
Definition enrichmentFails (encodeURIComponent : string -> result string) (env : Env)
    (parsed : ParsedGitHubUrl) (w : World) : Prop :=
  match buildContentsApiUrl encodeURIComponent parsed with
  | Throw _ => True
  | Ok url => Fails (fetchOutcome env w url)
  end.

(** ** The final segment of a path, as the specification words it

    The last of the pieces between slashes.  It is compared below with
    [basename], which is what the code calls. *)
Definition finalSegment (filePath : string) : string := last (JS.split filePath) "".

(** No slash in the string. *)
Definition slashFree (s : string) : bool :=
  forallb (fun c => negb (isSlash c)) (list_ascii_of_string s).

(** A line of the final report: printed, and not a progress line. *)
Definition isReportLine (e : Event) : bool :=
  match e with
  | EvOut (OutProgress _ _ _ _ _) => false
  | EvOut _ => true
  | _ => false
  end.

(** The relative paths of the files, in order. *)
Definition relativePaths (parsed : ParsedGitHubUrl) (files : list GitHubFile) : list string :=
  map (fun f => getRelativePath (f_path f) parsed) files.

(** The destination of a file in the directory mode. *)
Definition outputPathOf (join : string -> string -> string) (parsed : ParsedGitHubUrl)
    (outputDir : string) (isSingleFileWithPath : bool) (file : GitHubFile) : string :=
  if isSingleFileWithPath then outputDir
  else join outputDir (getRelativePath (f_path file) parsed).

(** A URL longer than the one that asks for the repository itself. *)
Definition longerThanRepoUrl (parsed : ParsedGitHubUrl) (u : string) : Prop :=
  String.length (defaultBranchUrl (owner parsed) (repo parsed)) < String.length u.

(** Three files, and a world in which the download of the second fails. *)
Definition threeFiles : list GitHubFile :=
  map (fileOfItem address_o_r_main_src)
    [Scenario.fileItem "src/a.ts"; Scenario.fileItem "src/lib/b.ts"; Scenario.fileItem "src/c.ts"].

Definition secondFails : Env :=
  Scenario.oneBadEnv "https://raw.githubusercontent.com/o/r/main/src/lib/b.ts".

(** Listings used below: a folder [src] with two files and a file outside;
    a file at [src] followed by an entry under [src/]; and the same two
    entries the other way round. *)
Definition listingOfFolder : list TreeItem :=
  [Scenario.dirItem "src"; Scenario.fileItem "src/a.ts";
   Scenario.fileItem "README.md"; Scenario.fileItem "src/sub/b.ts"].

Definition listingFileThenPrefix : list TreeItem :=
  [Scenario.dirItem "docs"; Scenario.fileItem "src"; Scenario.fileItem "src/a.ts"].

Definition listingPrefixThenFile : list TreeItem :=
  [Scenario.fileItem "src/a.ts"; Scenario.fileItem "src"].

(** The address of [https://github.com/o/r/blob/main/docs/guide/intro.md]. *)
Definition address_o_r_blob_intro : ParsedGitHubUrl :=
  {| owner := "o"; repo := "r"; ref := Some "main";
     path := Some "docs/guide/intro.md"; type := Blob |}.

(* ================================================================== *)
(** * More of [downloader.js]: [truncatePath] *)

(** [path.slice(-(maxLength - 18))]: a negative argument counts from the
    end, [-0] is [0], and a positive one counts from the start. *)
Definition sliceTail (path : string) (maxLength : nat) : string :=
  if 18 <? maxLength then JS.slice (JS.len path - (maxLength - 18)) path
  else JS.slice (18 - maxLength) path.

Definition truncatePath (path : string) (maxLength : nat) : string :=
  if JS.len path <=? maxLength then path
  else
    let start := String.substring 0 15 path in
    let e := sliceTail path maxLength in
    start +++ "..." +++ e.

(* ================================================================== *)
(** * [index.js]

    The command line is taken as parsed: the URL and the options.  Of what
    [main] prints, the lines that go to [console.error] are kept, without
    their colours, next to the exit code; the spinners and the banner are
    left out.  The token decides whether the run goes on and what advice an
    error gets; the headers it is sent in are not part of the model. *)

Record Options : Type := {
  opt_zip : option string;
  opt_output : string;
  opt_token : option string;
  opt_gh : bool
}.

(** What [main] reads of the process: the variable [GITHUB_TOKEN] and the
    output of [gh auth token]. *)
Record Process : Type := {
  GITHUB_TOKEN : option string;
  ghAuthToken : result string
}.

Inductive Exit : Type :=
| Exited (code : nat) (stderr : list string)
| Completed
| Crashed (message : string).    (* uncaught error: Node ends the process *)

Definition getGhCliToken (proc : Process) : option string :=
  match ghAuthToken proc with
  | Ok out =>
      let token := JS.trim out in
      if JS.nonempty token then Some token else None
  | Throw _ => None
  end.

(** [options.token || process.env.GITHUB_TOKEN] *)
Definition tokenOf (options : Options) (proc : Process) : option string :=
  if JS.truthy (opt_token options) then opt_token options else GITHUB_TOKEN proc.

(** The [catch] of the discovery step. *)
Definition discoveryErrorLines (message : string) (token : option string) : list string :=
  if JS.includes message "404" then
    "  Repository or path not found. Check the URL and try again."
    :: (if negb (JS.truthy token)
        then ["  If this is a private repo, provide a token with --token or GITHUB_TOKEN"]
        else [])
  else if JS.includes message "403" then
    "  Rate limit exceeded or access denied."
    :: (if negb (JS.truthy token)
        then ["  Consider providing a GitHub token with --token or GITHUB_TOKEN"]
        else [])
  else ["  " +++ message].

Section Main.

Variable URL : string -> option URLObject.
Variable encodeURIComponent : string -> result string.
Variable join : string -> string -> string.
Variable dirname : string -> string.
Variable env : Env.
Variable proc : Process.

(** The download step of [main]; [downloadFiles] is called without its
    fourth argument. *)
Definition mainDownload (options : Options) (files : list GitHubFile)
    (parsed : ParsedGitHubUrl) : M Exit :=
  if JS.truthy (opt_zip options) then
    r <- downloadToZip dirname env files (JS.or_else (opt_zip options) "") parsed ;;
    match r with
    | Rejected message => ret (Exited 1 [String "010" "Download failed: " +++ message])
    | Fulfilled _ => ret Completed
    | Died message => ret (Crashed message)
    end
  else
    downloadFiles join dirname env files (opt_output options) parsed false ;;;
    ret Completed.

(** The discovery step and what follows it, given the token. *)
Definition mainDiscover (options : Options) (token : option string)
    (parsed : ParsedGitHubUrl) : M Exit :=
  ' (files, parsed) <- getContents encodeURIComponent env parsed true ;;
  match files with
  | Throw message => ret (Exited 1 (discoveryErrorLines message token))
  | Ok files =>
      if length files =? 0 then ret (Exited 1 [])
      else mainDownload options files parsed
  end.

Definition main (url : string) (options : Options) : M Exit :=
  let token := tokenOf options proc in
  let afterGh : option (option string) :=
    if negb (JS.truthy token) && opt_gh options then
      let token := getGhCliToken proc in
      if negb (JS.truthy token) then None else Some token
    else Some token in
  match afterGh with
  | None => ret (Exited 2 ["Could not get token from gh CLI. Run `gh auth login` first."])
  | Some token =>
      match parseGitHubUrl URL url with
      | Throw message => ret (Exited 2 ["  " +++ message])
      | Ok parsed => mainDiscover options token parsed
      end
  end.

End Main.

(* ================================================================== *)
(** * Reading a history, continued *)

(** Calls of [writeFile]: path, content and outcome. *)
Fixpoint writes (tr : list Event) : list (string * Buffer * result unit) :=
  match tr with
  | [] => []
  | EvWriteFile f c r :: tr' => (f, c, r) :: writes tr'
  | _ :: tr' => writes tr'
  end.

(** Counts handed to the discovery callback. *)
Fixpoint progressCounts (tr : list Event) : list nat :=
  match tr with
  | [] => []
  | EvOnProgress n :: tr' => n :: progressCounts tr'
  | _ :: tr' => progressCounts tr'
  end.

(** The counters of the progress lines: current, total, bytes so far. *)
Fixpoint progressLines (tr : list Event) : list (nat * nat * nat) :=
  match tr with
  | [] => []
  | EvOut (OutProgress _ c t b _) :: tr' => (c, t, b) :: progressLines tr'
  | _ :: tr' => progressLines tr'
  end.

(** The failures listed one by one in the report. *)
Fixpoint failedLines (tr : list Event) : list (string * string) :=
  match tr with
  | [] => []
  | EvOut (OutFailedFile f e) :: tr' => (f, e) :: failedLines tr'
  | _ :: tr' => failedLines tr'
  end.

(** The numbers of the lines "... and n more". *)
Fixpoint moreLines (tr : list Event) : list nat :=
  match tr with
  | [] => []
  | EvOut (OutMore n) :: tr' => n :: moreLines tr'
  | _ :: tr' => moreLines tr'
  end.

(** Archives opened. *)
Fixpoint archives (tr : list Event) : list string :=
  match tr with
  | [] => []
  | EvCreateArchive z :: tr' => z :: archives tr'
  | _ :: tr' => archives tr'
  end.

(** Contents that were downloaded successfully, in order. *)
Fixpoint downloaded (tr : list Event) : list Buffer :=
  match tr with
  | [] => []
  | EvDownload _ (Ok c) :: tr' => c :: downloaded tr'
  | _ :: tr' => downloaded tr'
  end.

(** Directory creations that succeeded. *)
Fixpoint createdDirs (tr : list Event) : list string :=
  match tr with
  | [] => []
  | EvMkdir d (Ok _) :: tr' => d :: createdDirs tr'
  | _ :: tr' => createdDirs tr'
  end.

(** Contents that were written successfully, in order. *)
Fixpoint written (tr : list Event) : list Buffer :=
  match tr with
  | [] => []
  | EvWriteFile _ c (Ok _) :: tr' => c :: written tr'
  | _ :: tr' => written tr'
  end.

(** Total size of a list of contents. *)
Definition totalBytes (cs : list Buffer) : nat := list_sum (map (@length Byte.byte) cs).

(** What discovery may add to a history: requests and callback calls. *)
Definition isDiscoveryEvent (e : Event) : bool :=
  match e with
  | EvFetch _ _ | EvOnProgress _ => true
  | _ => false
  end.

(** What the materializer may add to a history. *)
Definition isDirectoryEvent (e : Event) : bool :=
  match e with
  | EvMkdir _ _ | EvDownload _ _ | EvWriteFile _ _ _ | EvOut _ => true
  | _ => false
  end.

Definition isArchiveLoopEvent (e : Event) : bool :=
  match e with
  | EvDownload _ _ | EvAppend _ _ | EvAppendError _ _ _ | EvOut _ | EvUncaught _ => true
  | _ => false
  end.

(** The token that names the kind of an address in a URL. *)
Definition markerOf (t : PathType) : list string :=
  match t with Root => [] | Tree => ["tree"] | Blob => ["blob"] end.

(** The segments of an optional path. *)
Definition pathSegments (p : option string) : list string :=
  match p with Some s => JS.split s | None => [] end.

(** The segments an address was built from, but for a stripped [.git]. *)
Definition segmentsOf (a : ParsedGitHubUrl) (repoSegment : string) : list string :=
  owner a :: repoSegment :: markerOf (type a)
    ++ match ref a with Some r => [r] | None => [] end
    ++ pathSegments (path a).

(** Worlds for the examples of [main]. *)
Definition noProcess : Process := {| GITHUB_TOKEN := None; ghAuthToken := Throw "gh: not found" |}.

Definition toDirectory : Options :=
  {| opt_zip := None; opt_output := "out"; opt_token := None; opt_gh := false |}.

Definition toArchive : Options :=
  {| opt_zip := Some "out.zip"; opt_output := "."; opt_token := None; opt_gh := false |}.



(** The address and the history once [getContents] has settled the
    reference: unchanged when the address has one, else after the lookup of
    the default branch, which may fail. *)
Definition afterLookup (env : Env) (parsed : ParsedGitHubUrl) (w : World)
    : result (ParsedGitHubUrl * World) :=
  if JS.truthy (ref parsed) then Ok (parsed, w)
  else
    let url := defaultBranchUrl (owner parsed) (repo parsed) in
    match fetchOutcome env w url with
    | Ok d => Ok (withRef parsed (default_branch d), w ++ [EvFetch url (Ok d)])
    | Throw m => Throw m
    end.

(** The address is one of a single file: kind [blob] with a path. *)
Definition isSingleFile (parsed : ParsedGitHubUrl) : bool :=
  PathType_eqb (type parsed) Blob && JS.truthy (path parsed).

(** [main] asked the gh CLI for a token and got none. *)
Definition ghFails (options : Options) (proc : Process) : bool :=
  negb (JS.truthy (tokenOf options proc)) && opt_gh options
  && negb (JS.truthy (getGhCliToken proc)).

(** The root address of [https://github.com/o/r]. *)
Definition address_o_r : ParsedGitHubUrl :=
  {| owner := "o"; repo := "r"; ref := None; path := None; type := Root |}.

(** The one descriptor of [address_o_r_blob_intro]. *)
Definition introFile : GitHubFile :=
  {| f_path := "docs/guide/intro.md";
     downloadUrl := getRawUrl address_o_r_blob_intro "docs/guide/intro.md";
     size := 0; sha := Some "" |}.

(** Seven failures of the same kind. *)
Definition sevenErrors : list DownloadError :=
  List.repeat {| err_file := "a.ts"; err_error := "Failed to download: 404 Not Found" |} 7.

(* ================================================================== *)
(** * What happens to one file

    A history is compared with what the loops do file by file.  The
    outcome of a file names the first step that threw, or the content that
    went through. *)

(** The operations on the network, the disk and the archive: a history
    without what is printed, without the API requests and the callback. *)
Definition isOperation (e : Event) : bool :=
  match e with
  | EvDownload _ _ | EvMkdir _ _ | EvWriteFile _ _ _ | EvCreateArchive _
  | EvAppend _ _ | EvAppendError _ _ _ | EvFinalize | EvUncaught _ => true
  | _ => false
  end.

Definition operations (tr : list Event) : list Event := filter isOperation tr.















(** A directory stands where the archive is to be written: the stream
    cannot open its file. The downloads work. *)
Definition directoryAtZipPathEnv : Env :=
  {| http_get := fun _ _ => Ok (Scenario.okResponse (Scenario.listingData []) [Byte.x2a]);
     fs_mkdir := fun _ _ => Ok tt;
     fs_writeFile := fun _ _ _ => Ok tt;
     stream_error := fun _ => Some "EISDIR: illegal operation on a directory, open 'out.zip'";
     archive_append := fun _ _ _ => Ok tt;
     archive_finalize := fun _ => Ok tt;
     stream_close := fun _ => Ok tt |}.


(** The archive refuses the entry named [bad]; everything else works. *)
Definition refusingArchiveEnv (bad : string) : Env :=
  {| http_get := fun _ _ => Ok (Scenario.okResponse (Scenario.listingData []) [Byte.x2a]);
     fs_mkdir := fun _ _ => Ok tt;
     fs_writeFile := fun _ _ _ => Ok tt;
     stream_error := fun _ => None;
     archive_append := fun _ _ name =>
       if String.eqb name bad then Throw "archive refused the entry" else Ok tt;
     archive_finalize := fun _ => Ok tt;
     stream_close := fun _ => Ok tt |}.

(* ================================================================== *)
(** * Properties *)

Example parse_root :
  parseGitHubUrl URL_model "https://github.com/o/r"
  = Ok {| owner := "o"; repo := "r"; ref := None; path := None; type := Root |}.
Proof. reflexivity. Qed.

Example parse_tree_src :
  parseGitHubUrl URL_model " https://github.com/o/r.git/tree/main/src/lib// "
  = Ok {| owner := "o"; repo := "r"; ref := Some "main"; path := Some "src/lib"; type := Tree |}.
Proof. reflexivity. Qed.

Example parse_blob :
  parseGitHubUrl URL_model "https://github.com/o/r/blob/main/README.md"
  = Ok {| owner := "o"; repo := "r"; ref := Some "main"; path := Some "README.md"; type := Blob |}.
Proof. reflexivity. Qed.

Example parse_tree_no_path :
  parseGitHubUrl URL_model "https://github.com/o/r/tree/main"
  = Ok {| owner := "o"; repo := "r"; ref := Some "main"; path := None; type := Tree |}.
Proof. reflexivity. Qed.

Example parse_not_a_url :
  parseGitHubUrl URL_model "not a url" = Throw "Invalid URL format".
Proof. reflexivity. Qed.

Example basename_intro :
  basename "docs/guide/intro.md" = "intro.md" /\ basename "a/b//" = "b" /\ basename "/" = "".
Proof. repeat split; reflexivity. Qed.

(* ------------------------------------------------------------------ *)
(** ** Strings *)

Lemma nonempty_true (s : string) : JS.nonempty s = true <-> s <> "".
Proof. destruct s; simpl; split; congruence. Qed.

Lemma truthy_some (o : option string) :
  JS.truthy o = true <-> exists s, o = Some s /\ s <> "".
Proof.
  destruct o as [s|]; simpl.
  - rewrite nonempty_true. split.
    + intros H. exists s. auto.
    + intros (s' & E & H). congruence.
  - split; [discriminate | intros (s & E & _); discriminate].
Qed.

Lemma or_else_some (s d : string) : s <> "" -> JS.or_else (Some s) d = s.
Proof. destruct s; simpl; congruence. Qed.

Lemma startsWith_append (p r : string) : JS.startsWith (p +++ r) p = true.
Proof.
  induction p as [|c p IH]; simpl; [reflexivity|].
  now rewrite Ascii.eqb_refl, IH.
Qed.

Lemma startsWith_split (s p : string) :
  JS.startsWith s p = true -> s = p +++ JS.slice (JS.len p) s.
Proof.
  revert s. induction p as [|c p IH]; intros s H; simpl in *; [reflexivity|].
  destruct s as [|a s]; [discriminate|].
  apply andb_true_iff in H as [Hc Hs].
  apply Ascii.eqb_eq in Hc. subst a. f_equal. now apply IH.
Qed.

Lemma slice_append (p r : string) : JS.slice (JS.len p) (p +++ r) = r.
Proof. induction p as [|c p IH]; simpl; auto. Qed.

Lemma length_append (a b : string) :
  String.length (a +++ b) = String.length a + String.length b.
Proof. induction a as [|c a IH]; simpl; auto. Qed.

Lemma append_assoc (a b c : string) : (a +++ b) +++ c = a +++ b +++ c.
Proof. induction a as [|x a IH]; simpl; congruence. Qed.

Lemma append_inj_l (a b c : string) : a +++ b = a +++ c -> b = c.
Proof. induction a as [|x a IH]; simpl; intros H; [assumption|]. injection H. auto. Qed.

Lemma append_id_r (a b : string) : a +++ b = a -> b = "".
Proof.
  intros H. apply (f_equal String.length) in H. rewrite length_append in H.
  destruct b; [reflexivity | simpl in H; lia].
Qed.

Lemma filterBoolean_nonempty (xs : list string) :
  Forall (fun x => x <> "") (JS.filterBoolean xs).
Proof.
  apply Forall_forall. intros x Hx. apply filter_In in Hx as [_ Hx].
  now apply nonempty_true.
Qed.

(** [stripGitSuffix] removes a final [.git] and nothing else. *)
Lemma stripGitSuffix_suffix (x : string) : JS.stripGitSuffix (x +++ ".git") = x.
Proof.
  induction x as [|c x IH]; [reflexivity|].
  change ((String c x) +++ ".git") with (String c (x +++ ".git")).
  cbn [JS.stripGitSuffix].
  destruct (String.eqb (String c (x +++ ".git")) ".git") eqn:E.
  - apply String.eqb_eq in E. apply (f_equal String.length) in E.
    simpl in E. rewrite length_append in E. simpl in E. lia.
  - now rewrite IH.
Qed.

Lemma stripGitSuffix_spec (s : string) :
  (exists x, s = x +++ ".git" /\ JS.stripGitSuffix s = x)
  \/ ((forall x, s <> x +++ ".git") /\ JS.stripGitSuffix s = s).
Proof.
  induction s as [|c s IH].
  - right. split; [|reflexivity]. intros [|? ?]; simpl; discriminate.
  - cbn [JS.stripGitSuffix].
    destruct (String.eqb (String c s) ".git") eqn:E.
    + apply String.eqb_eq in E. left. exists "". split; [exact E | reflexivity].
    + destruct IH as [(x & Hx & Hs) | (Hn & Hs)].
      * left. exists (String c x). simpl. split; congruence.
      * right. split; [|congruence].
        intros [|a x] Hx; simpl in Hx.
        -- rewrite Hx in E. simpl in E. discriminate.
        -- injection Hx as -> Hx. exact (Hn x Hx).
Qed.

(* ------------------------------------------------------------------ *)
(** ** The URL resolver *)

Section ParserFacts.

Variable URL : string -> option URLObject.

(** The two shapes of a successful parse. *)
Lemma parseGitHubUrl_ok (url : string) (a : ParsedGitHubUrl) :
  parseGitHubUrl URL url = Ok a ->
  exists u, URL (cleanUrl url) = Some u
    /\ JS.includes (hostname u) "github.com" = true
    /\ ((exists o r, pathPartsOf u = [o; r]
           /\ a = {| owner := o; repo := JS.stripGitSuffix r; ref := None;
                     path := None; type := Root |})
        \/ (exists o r t rf rest, pathPartsOf u = o :: r :: t :: rf :: rest
           /\ (t = "tree" /\ type a = Tree \/ t = "blob" /\ type a = Blob)
           /\ owner a = o /\ repo a = JS.stripGitSuffix r /\ ref a = Some rf
           /\ path a = (if JS.nonempty (JS.join rest) then Some (JS.join rest) else None))).
Proof.
  unfold parseGitHubUrl, cleanUrl, pathPartsOf.
  destruct (URL _) as [u|]; [|discriminate].
  destruct (JS.includes (hostname u) "github.com") eqn:Hh; simpl; [|discriminate].
  intros H. exists u. split; [reflexivity|]. split; [exact Hh|].
  destruct (JS.filterBoolean (JS.split (pathname u))) as [|o [|r [|t [|rf rest]]]];
    simpl in H; try discriminate.
  - left. exists o, r. split; [reflexivity|]. congruence.
  - destruct (String.eqb t "tree"), (String.eqb t "blob"); discriminate.
  - right. exists o, r, t, rf, rest. split; [reflexivity|].
    destruct (String.eqb t "tree") eqn:Et; simpl in H.
    + apply String.eqb_eq in Et. injection H as <-. simpl. auto 10.
    + destruct (String.eqb t "blob") eqn:Eb; simpl in H; [|discriminate].
      apply String.eqb_eq in Eb. injection H as <-. simpl. auto 10.
Qed.

Lemma pathParts_nonempty (u : URLObject) : Forall (fun x => x <> "") (pathPartsOf u).
Proof. apply filterBoolean_nonempty. Qed.

End ParserFacts.

Section Resolver.

Variable URL : string -> option URLObject.

Lemma stripGitSuffix_empty (s : string) :
  JS.stripGitSuffix s = "" <-> s = "" \/ s = ".git".
Proof.
  split.
  - destruct s as [|c s]; [auto|]. cbn [JS.stripGitSuffix].
    destruct (String.eqb (String c s) ".git") eqn:E; [|discriminate].
    apply String.eqb_eq in E. auto.
  - intros [-> | ->]; reflexivity.
Qed.

(** What holds of [owner] and [repo] after every successful parse: the
    owner is the first segment, the repository is the second one without
    a final [.git], and it is empty exactly when that segment is [.git]. *)
Lemma owner_repo_of_segments (url : string) (a : ParsedGitHubUrl) :
  parseGitHubUrl URL url = Ok a ->
  exists u o r rest,
    URL (cleanUrl url) = Some u /\ pathPartsOf u = o :: r :: rest
    /\ owner a = o /\ o <> ""
    /\ repo a = JS.stripGitSuffix r
    /\ (repo a = "" <-> r = ".git").
Proof.
  intros H. apply parseGitHubUrl_ok in H as (u & Hu & _ & Hshape).
  pose proof (pathParts_nonempty u) as Hne.
  assert (Hgen : forall o r rest, pathPartsOf u = o :: r :: rest ->
            owner a = o -> repo a = JS.stripGitSuffix r ->
            exists u o r rest,
              URL (cleanUrl url) = Some u /\ pathPartsOf u = o :: r :: rest
              /\ owner a = o /\ o <> ""
              /\ repo a = JS.stripGitSuffix r
              /\ (repo a = "" <-> r = ".git")).
  { intros o r rest Hp Ho Hr. exists u, o, r, rest.
    rewrite Hp in Hne. inversion Hne as [|? ? Ho' Hne']. inversion Hne' as [|? ? Hr' _].
    subst. repeat split; auto.
    - rewrite Hr. intros E. apply stripGitSuffix_empty in E as [E|E]; congruence.
    - intros ->. rewrite Hr. reflexivity. }
  destruct Hshape as [(o & r & Hp & ->) | (o & r & t & rf & rest & Hp & _ & Ho & Hr & _)].
  - apply (Hgen o r [] Hp); reflexivity.
  - apply (Hgen o r (t :: rf :: rest) Hp); assumption.
Qed.

(** The inputs that [parseGitHubUrl] rejects: those whose cleaned form is
    not a URL, whose host does not contain [github.com], whose path has
    fewer than two segments, whose third segment is neither [tree] nor
    [blob], or whose marker is the last segment. *)
Lemma parseGitHubUrl_rejects (url : string) :
  (URL (cleanUrl url) = None ->
     parseGitHubUrl URL url = Throw "Invalid URL format")
  /\ (forall u, URL (cleanUrl url) = Some u ->
        (JS.includes (hostname u) "github.com" = false ->
           parseGitHubUrl URL url = Throw "URL must be a GitHub URL (github.com)")
        /\ (length (pathPartsOf u) < 2 -> Fails (parseGitHubUrl URL url))
        /\ (forall t, nth_error (pathPartsOf u) 2 = Some t ->
              t <> "tree" -> t <> "blob" -> Fails (parseGitHubUrl URL url))
        /\ (forall t, nth_error (pathPartsOf u) 2 = Some t ->
              t = "tree" \/ t = "blob" -> length (pathPartsOf u) = 3 ->
              Fails (parseGitHubUrl URL url))).
Proof.
  unfold parseGitHubUrl, cleanUrl, pathPartsOf, Fails. split.
  - intros ->. reflexivity.
  - intros u ->. repeat split.
    + intros ->. reflexivity.
    + intros Hlen. destruct (JS.includes _ _); simpl; [|eauto].
      apply Nat.ltb_lt in Hlen. rewrite Hlen. eauto.
    + intros t Ht Htree Hblob.
      destruct (JS.includes _ _); simpl; [|eauto].
      destruct (JS.filterBoolean (JS.split (pathname u))) as [|o [|r [|t' rest]]];
        simpl in *; try discriminate; eauto.
      injection Ht as ->.
      apply String.eqb_neq in Htree, Hblob. rewrite Htree, Hblob. simpl. eauto.
    + intros t Ht Hmark Hlen.
      destruct (JS.includes _ _); simpl; [|eauto].
      destruct (JS.filterBoolean (JS.split (pathname u))) as [|o [|r [|t' [|rf rest]]]];
        simpl in *; try discriminate.
      destruct (negb (t' =? "tree")%string && negb (t' =? "blob")%string); eauto.
Qed.

End Resolver.

Lemma parseGitHubUrl_rejects_witness :
  parseGitHubUrl URL_model "not a url" = Throw "Invalid URL format"
  /\ parseGitHubUrl URL_model "https://example.com/o/r"
     = Throw "URL must be a GitHub URL (github.com)"
  /\ Fails (parseGitHubUrl URL_model "https://github.com/o")
  /\ Fails (parseGitHubUrl URL_model "https://github.com/o/r/commits/main")
  /\ Fails (parseGitHubUrl URL_model "https://github.com/o/r/blob").
Proof.
  split; [|split; [|split; [|split]]].
  - apply (proj1 (parseGitHubUrl_rejects URL_model "not a url")). reflexivity.
  - refine (proj1 (proj2 (parseGitHubUrl_rejects URL_model "https://example.com/o/r")
             {| hostname := "example.com"; pathname := "/o/r" |} _) _);
      reflexivity.
  - refine (proj1 (proj2 (proj2 (parseGitHubUrl_rejects URL_model "https://github.com/o")
             {| hostname := "github.com"; pathname := "/o" |} _)) _);
      [reflexivity | simpl; lia].
  - refine (proj1 (proj2 (proj2 (proj2 (parseGitHubUrl_rejects URL_model
             "https://github.com/o/r/commits/main")
             {| hostname := "github.com"; pathname := "/o/r/commits/main" |} _))) "commits" _ _ _);
      [reflexivity | reflexivity | discriminate | discriminate].
  - refine (proj2 (proj2 (proj2 (proj2 (parseGitHubUrl_rejects URL_model "https://github.com/o/r/blob")
             {| hostname := "github.com"; pathname := "/o/r/blob" |} _))) "blob" _ _ _);
      [reflexivity | reflexivity | right; reflexivity | reflexivity].
Defined.

(** C5.  The host test lets a host pass that is not [github.com] and only
    contains it: [https://notgithub.com/o/r] is resolved to a root address,
    though the test is there to make sure that the URL is a GitHub URL and
    its error message names [github.com]. *)
Theorem C5_other_host_is_resolved :
  option_map hostname (URL_model (cleanUrl "https://notgithub.com/o/r")) = Some "notgithub.com"
  /\ "notgithub.com" <> "github.com"
  /\ parseGitHubUrl URL_model "https://notgithub.com/o/r"
     = Ok {| owner := "o"; repo := "r"; ref := None; path := None; type := Root |}.
Proof. split; [reflexivity | split; [discriminate | reflexivity]]. Qed.

(** C8.  The repository of a resolved address can be empty: the second
    segment [.git] is stripped to nothing, and the parse still succeeds. *)
Theorem C8_repository_can_be_empty :
  parseGitHubUrl URL_model "https://github.com/o/.git"
  = Ok {| owner := "o"; repo := ""; ref := None; path := None; type := Root |}.
Proof. reflexivity. Qed.

(* ------------------------------------------------------------------ *)
(** ** The tree loop *)

Ltac run_io := unfold bind, ret, emit, callOnProgress, fetch, downloadFile in *; simpl in *.

Lemma progressEvents_snoc (onProgress : bool) (count n : nat) :
  progressEvents onProgress count (S n)
  = (if onProgress then [EvOnProgress (S count)] else [])
    ++ progressEvents onProgress (S count) n.
Proof. reflexivity. Qed.

Lemma treeLoop_run (parsed : ParsedGitHubUrl) (onProgress : bool) (pathPrefix : string)
    (items : list TreeItem) :
  forall (files : list GitHubFile) (count : nat) (w : World),
    treeLoop parsed onProgress pathPrefix items files count w
    = (files ++ map (fileOfItem parsed) (kept parsed pathPrefix items),
       w ++ progressEvents onProgress count (length (kept parsed pathPrefix items))).
Proof.
  induction items as [|item rest IH]; intros files count w.
  - simpl. unfold ret. now rewrite !app_nil_r.
  - cbn [treeLoop kept]. unfold isBlobItem.
    destruct (String.eqb (item_type item) "blob"); cbn [negb].
    2: { apply IH. }
    destruct (JS.truthy (path parsed)).
    + destruct (pathIs (item_path item) (path parsed)).
      * destruct onProgress; run_io; now rewrite ?app_nil_r.
      * destruct (JS.startsWith (item_path item) pathPrefix); cbn [negb].
        -- unfold bind. destruct onProgress; run_io; rewrite IH, <- !app_assoc; reflexivity.
        -- apply IH.
    + unfold bind. destruct onProgress; run_io; rewrite IH, <- !app_assoc; reflexivity.
Qed.

Section KeptFacts.

Variable parsed : ParsedGitHubUrl.
Variable p : string.
Hypothesis Hpath : path parsed = Some p.
Hypothesis Hp : p <> "".

Lemma truthy_path : JS.truthy (path parsed) = true.
Proof. rewrite Hpath. simpl. now apply nonempty_true. Qed.

Lemma pathPrefixOf_path : pathPrefixOf parsed = p +++ "/".
Proof. unfold pathPrefixOf. rewrite truthy_path, Hpath. now rewrite or_else_some. Qed.

(** Without a file entry at [p], the loop is a filter. *)
Lemma kept_filter (items : list TreeItem) :
  (forall item, In item items -> exactlyAt p item = false) ->
  kept parsed (p +++ "/") items = filter (underPath p) items.
Proof.
  induction items as [|item rest IH]; intros Hno; [reflexivity|].
  cbn [kept filter]. unfold underPath.
  pose proof (Hno item (or_introl eq_refl)) as Hitem. unfold exactlyAt in Hitem.
  assert (Hrest : kept parsed (p +++ "/") rest = filter (underPath p) rest).
  { apply IH. intros x Hx. apply Hno. now right. }
  destruct (isBlobItem item); cbn [negb andb] in *.
  2: { exact Hrest. }
  rewrite truthy_path, Hpath. cbn [pathIs]. rewrite Hitem.
  destruct (JS.startsWith (item_path item) (p +++ "/")); cbn [negb]; now rewrite Hrest.
Qed.

(** With a file entry at [p], the loop stops at the first such entry. *)
Lemma kept_stops (pre post : list TreeItem) (it : TreeItem) :
  exactlyAt p it = true ->
  (forall item, In item pre -> exactlyAt p item = false) ->
  kept parsed (p +++ "/") (pre ++ it :: post) = filter (underPath p) pre ++ [it].
Proof.
  intros Hit. induction pre as [|item rest IH]; intros Hno.
  - cbn [app kept filter]. unfold exactlyAt in Hit.
    apply andb_true_iff in Hit as [Hb He]. rewrite Hb. cbn [negb].
    rewrite truthy_path, Hpath. cbn [pathIs]. now rewrite He.
  - cbn [app kept filter]. unfold underPath.
    pose proof (Hno item (or_introl eq_refl)) as Hitem. unfold exactlyAt in Hitem.
    assert (Hrest : kept parsed (p +++ "/") (rest ++ it :: post)
                    = filter (underPath p) rest ++ [it]).
    { apply IH. intros x Hx. apply Hno. now right. }
    destruct (isBlobItem item); cbn [negb andb] in *.
    2: { exact Hrest. }
    rewrite truthy_path, Hpath. cbn [pathIs]. rewrite Hitem.
    destruct (JS.startsWith (item_path item) (p +++ "/")); cbn [negb]; now rewrite Hrest.
Qed.

End KeptFacts.

(** A list with an element that passes a test splits at the first one. *)
Lemma first_match {A} (f : A -> bool) (l : list A) :
  existsb f l = true ->
  exists pre x post, l = pre ++ x :: post /\ f x = true
                     /\ (forall y, In y pre -> f y = false).
Proof.
  induction l as [|a l IH]; simpl; [discriminate|].
  destruct (f a) eqn:Ea; simpl.
  - intros _. exists [], a, l. simpl. repeat split; auto. intros y [].
  - intros H. destruct (IH H) as (pre & x & post & -> & Hx & Hpre).
    exists (a :: pre), x, post. simpl. repeat split; auto.
    intros y [<- | Hy]; auto.
Qed.

(** Without a path, every file entry is kept. *)
Lemma kept_all (parsed : ParsedGitHubUrl) (pathPrefix : string) (items : list TreeItem) :
  JS.truthy (path parsed) = false ->
  kept parsed pathPrefix items = filter isBlobItem items.
Proof.
  intros Hf. induction items as [|item rest IH]; [reflexivity|].
  cbn [kept filter]. rewrite Hf, IH. now destruct (isBlobItem item).
Qed.

(* ------------------------------------------------------------------ *)
(** ** Discovery *)

Section Discovery.

Variable encodeURIComponent : string -> result string.
Variable env : Env.

(** A listing that arrives is turned into the kept entries. *)
Lemma getTreeContents_listing (parsed : ParsedGitHubUrl) (onProgress : bool) (w : World)
    (data : ApiData) (items : list TreeItem) :
  fetchOutcome env w (buildTreeApiUrl parsed) = Ok data ->
  tree data = Some items ->
  getTreeContents env parsed onProgress w
  = (Ok (map (fileOfItem parsed) (kept parsed (pathPrefixOf parsed) items)),
     w ++ EvFetch (buildTreeApiUrl parsed) (Ok data)
          :: progressEvents onProgress 0 (length (kept parsed (pathPrefixOf parsed) items))).
Proof.
  intros Hf Ht. unfold getTreeContents, bind, fetch. rewrite Hf, Ht.
  rewrite treeLoop_run. cbn [app]. unfold ret. now rewrite <- app_assoc.
Qed.

(** An address whose reference is set and that is not a file address with
    a path goes straight to the tree listing. *)
Lemma getContents_listing (parsed : ParsedGitHubUrl) (onProgress : bool) (w : World) :
  JS.truthy (ref parsed) = true ->
  PathType_eqb (type parsed) Blob && JS.truthy (path parsed) = false ->
  getContents encodeURIComponent env parsed onProgress w
  = (fst (getTreeContents env parsed onProgress w), parsed,
     snd (getTreeContents env parsed onProgress w)).
Proof.
  intros Hr Hb. unfold getContents, getContentsWithRef. rewrite Hr, Hb. cbn [negb].
  unfold bind, ret. now destruct (getTreeContents env parsed onProgress w).
Qed.

End Discovery.

(* ------------------------------------------------------------------ *)
(** ** Relative paths *)

Lemma getRelativePath_strips (parsed : ParsedGitHubUrl) (p rest : string) :
  type parsed = Tree -> path parsed = Some p -> p <> "" ->
  getRelativePath ((p +++ "/") +++ rest) parsed = rest.
Proof.
  intros Ht Hpath Hp. unfold getRelativePath.
  rewrite Ht, Hpath, (or_else_some _ Hp). cbn [JS.truthy PathType_eqb].
  apply nonempty_true in Hp. rewrite Hp, startsWith_append. cbn [andb].
  apply slice_append.
Qed.

Lemma getRelativePath_under (parsed : ParsedGitHubUrl) (p filePath : string) :
  type parsed = Tree -> path parsed = Some p -> p <> "" ->
  JS.startsWith filePath (p +++ "/") = true ->
  filePath = (p +++ "/") +++ getRelativePath filePath parsed.
Proof.
  intros Ht Hpath Hp Hs.
  rewrite (startsWith_split _ _ Hs) at 2.
  rewrite (getRelativePath_strips _ _ Ht Hpath Hp).
  now apply startsWith_split.
Qed.

(** C1.  For a folder address with a path, and a listing with no file
    entry at that very path, discovery keeps exactly the file entries under
    [path + '/'], in the order of the listing, and the relative path of each
    kept file is its path without that prefix.  For
    [https://github.com/o/r/tree/main/src] and the listing [src/a.ts],
    [src/sub/b.ts], [other/c.ts], the files are [src/a.ts] and
    [src/sub/b.ts], with relative paths [a.ts] and [sub/b.ts]. *)
Theorem C1_tree_discovery_keeps_prefix :
  (forall (env : Env) (parsed : ParsedGitHubUrl) (onProgress : bool) (w : World)
          (p : string) (data : ApiData) (items : list TreeItem),
      type parsed = Tree -> path parsed = Some p -> p <> "" ->
      fetchOutcome env w (buildTreeApiUrl parsed) = Ok data ->
      tree data = Some items ->
      (forall item, In item items -> exactlyAt p item = false) ->
      let files := map (fileOfItem parsed) (filter (underPath p) items) in
      fst (getTreeContents env parsed onProgress w) = Ok files
      /\ (forall enc, JS.truthy (ref parsed) = true ->
            fst (getContents enc env parsed onProgress w) = (Ok files, parsed))
      /\ (forall f, In f files ->
            f_path f = (p +++ "/") +++ getRelativePath (f_path f) parsed))
  /\ (forall (enc : string -> result string) (env : Env) (onProgress : bool) (w : World)
             (data : ApiData) (items : list TreeItem),
      fetchOutcome env w (buildTreeApiUrl address_o_r_main_src) = Ok data ->
      tree data = Some items ->
      forallb isBlobItem items = true ->
      map item_path items = ["src/a.ts"; "src/sub/b.ts"; "other/c.ts"] ->
      parseGitHubUrl URL_model "https://github.com/o/r/tree/main/src" = Ok address_o_r_main_src
      /\ exists files,
           fst (getContents enc env address_o_r_main_src onProgress w)
           = (Ok files, address_o_r_main_src)
           /\ map f_path files = ["src/a.ts"; "src/sub/b.ts"]
           /\ map (fun f => getRelativePath (f_path f) address_o_r_main_src) files
              = ["a.ts"; "sub/b.ts"]).
Proof.
  split.
  - intros env parsed onProgress w p data items Ht Hpath Hp Hf Htree Hno files.
    assert (Hrun : fst (getTreeContents env parsed onProgress w) = Ok files).
    { rewrite (getTreeContents_listing _ _ _ _ Hf Htree). cbn [fst].
      rewrite (pathPrefixOf_path _ Hpath Hp), (kept_filter _ Hpath Hp _ Hno). reflexivity. }
    split; [exact Hrun|]. split.
    + intros enc Href. rewrite getContents_listing; [|exact Href|now rewrite Ht].
      cbn [fst]. now rewrite Hrun.
    + intros f Hin. apply in_map_iff in Hin as (item & <- & Hitem).
      apply filter_In in Hitem as [_ Hu]. unfold underPath in Hu.
      apply andb_true_iff in Hu as [_ Hs]. cbn [f_path fileOfItem].
      now apply getRelativePath_under.
  - intros enc env onProgress w data items Hf Htree Hblob Hpaths.
    split; [reflexivity|].
    destruct items as [|i1 [|i2 [|i3 [|i4 rest]]]]; try discriminate.
    injection Hpaths as H1 H2 H3.
    cbn [forallb] in Hblob. apply andb_true_iff in Hblob as [B1 Hblob].
    apply andb_true_iff in Hblob as [B2 Hblob]. apply andb_true_iff in Hblob as [B3 _].
    rewrite getContents_listing; [|reflexivity|reflexivity].
    rewrite (getTreeContents_listing _ _ _ _ Hf Htree). cbn [fst].
    eexists. split; [reflexivity|].
    cbn [kept pathPrefixOf address_o_r_main_src path JS.truthy JS.nonempty pathIs].
    rewrite B1, B2, B3, H1, H2, H3. cbn. rewrite H1, H2. split; reflexivity.
Qed.

Lemma C1_tree_discovery_keeps_prefix_witness :
  fst (getTreeContents (Scenario.listingEnv listingOfFolder) address_o_r_main_src true [])
  = Ok (map (fileOfItem address_o_r_main_src)
          [Scenario.fileItem "src/a.ts"; Scenario.fileItem "src/sub/b.ts"]).
Proof.
  refine (proj1 (proj1 C1_tree_discovery_keeps_prefix (Scenario.listingEnv listingOfFolder)
            address_o_r_main_src true [] "src" (Scenario.listingData listingOfFolder)
            listingOfFolder eq_refl eq_refl _ eq_refl eq_refl _)).
  - discriminate.
  - intros item Hin. simpl in Hin.
    destruct Hin as [<- | [<- | [<- | [<- | []]]]]; reflexivity.
Defined.

(* ------------------------------------------------------------------ *)
(** ** Exact matches in the listing *)

(** C3 (amended).  When some file entry of the listing sits at
    [address.path] itself, the loop stops at the first such entry: its
    descriptor is the last one returned and nothing after it is looked at.
    The descriptors before it are those of the earlier file entries under
    [address.path + '/'], so the entry is the only descriptor when there is
    no such earlier entry. *)
Theorem C3_exact_match_stops (env : Env) (parsed : ParsedGitHubUrl) (onProgress : bool)
    (w : World) (p : string) (data : ApiData) (items : list TreeItem) :
  path parsed = Some p -> p <> "" ->
  fetchOutcome env w (buildTreeApiUrl parsed) = Ok data ->
  tree data = Some items ->
  existsb (exactlyAt p) items = true ->
  exists pre it post,
    items = pre ++ it :: post
    /\ exactlyAt p it = true
    /\ (forall x, In x pre -> exactlyAt p x = false)
    /\ getTreeContents env parsed onProgress w
       = (Ok (map (fileOfItem parsed) (filter (underPath p) pre) ++ [fileOfItem parsed it]),
          w ++ EvFetch (buildTreeApiUrl parsed) (Ok data)
               :: progressEvents onProgress 0 (S (length (filter (underPath p) pre))))
    /\ (forall post', kept parsed (pathPrefixOf parsed) (pre ++ it :: post')
                      = filter (underPath p) pre ++ [it])
    /\ ((forall x, In x pre -> underPath p x = false) ->
        fst (getTreeContents env parsed onProgress w) = Ok [fileOfItem parsed it])
    /\ (forall enc, type parsed <> Blob -> JS.truthy (ref parsed) = true ->
        fst (getContents enc env parsed onProgress w)
        = (Ok (map (fileOfItem parsed) (filter (underPath p) pre) ++ [fileOfItem parsed it]),
           parsed)).
Proof.
  intros Hpath Hp Hf Htree Hex.
  destruct (first_match _ _ Hex) as (pre & it & post & -> & Hit & Hpre).
  exists pre, it, post.
  assert (Hkept : forall post', kept parsed (pathPrefixOf parsed) (pre ++ it :: post')
                                = filter (underPath p) pre ++ [it]).
  { intros post'. rewrite (pathPrefixOf_path _ Hpath Hp).
    now apply kept_stops. }
  assert (Hrun : getTreeContents env parsed onProgress w
       = (Ok (map (fileOfItem parsed) (filter (underPath p) pre) ++ [fileOfItem parsed it]),
          w ++ EvFetch (buildTreeApiUrl parsed) (Ok data)
               :: progressEvents onProgress 0 (S (length (filter (underPath p) pre))))).
  { rewrite (getTreeContents_listing _ _ _ _ Hf Htree), Hkept, map_app, length_app.
    cbn [map length]. now rewrite Nat.add_1_r. }
  repeat split; auto.
  - intros Hnone. rewrite Hrun. cbn [fst].
    assert (E : filter (underPath p) pre = []).
    { clear - Hnone. induction pre as [|x pre IH]; [reflexivity|]. cbn [filter].
      rewrite (Hnone x (or_introl eq_refl)). apply IH. intros y Hy. apply Hnone. now right. }
    now rewrite E.
  - intros enc Hty Href. rewrite getContents_listing; [|exact Href|].
    + now rewrite Hrun.
    + destruct (type parsed); try reflexivity. congruence.
Qed.

Lemma C3_exact_match_stops_witness :
  exists pre it post,
    listingFileThenPrefix = pre ++ it :: post
    /\ fst (getTreeContents (Scenario.listingEnv listingFileThenPrefix)
              address_o_r_main_src true [])
       = Ok [fileOfItem address_o_r_main_src it].
Proof.
  destruct (C3_exact_match_stops (Scenario.listingEnv listingFileThenPrefix)
              address_o_r_main_src true []
              (p := "src") (data := Scenario.listingData listingFileThenPrefix)
              (items := listingFileThenPrefix)
              eq_refl ltac:(discriminate) eq_refl eq_refl eq_refl)
    as (pre & it & post & Hsplit & Hit & Hpre & Hrun & _).
  exists pre, it, post. split; [exact Hsplit|].
  rewrite Hrun. cbn [fst].
  destruct pre as [|a [|b pre]].
  - reflexivity.
  - injection Hsplit as <- _. reflexivity.
  - injection Hsplit as _ <- _.
    discriminate (Hpre (Scenario.fileItem "src") (or_intror (or_introl eq_refl))).
Defined.

(** C3, as stated, fails: file entries under the prefix that come before
    the exact match have been kept by the time the loop stops. *)
Lemma C3_counterexample :
  existsb (exactlyAt "src") listingPrefixThenFile = true
  /\ fst (getContents Scenario.encodePlain (Scenario.listingEnv listingPrefixThenFile)
            address_o_r_main_src true [])
     = (Ok [fileOfItem address_o_r_main_src (Scenario.fileItem "src/a.ts");
            fileOfItem address_o_r_main_src (Scenario.fileItem "src")],
        address_o_r_main_src).
Proof. split; reflexivity. Qed.

(* ------------------------------------------------------------------ *)
(** ** Single files *)

Section SingleFile.

Variable encodeURIComponent : string -> result string.
Variable env : Env.

(** The enrichment changes neither the path nor the download URL. *)
Lemma enrich_keeps (parsed : ParsedGitHubUrl) (file : GitHubFile) (w : World) :
  f_path (fst (enrich encodeURIComponent env parsed file w)) = f_path file
  /\ downloadUrl (fst (enrich encodeURIComponent env parsed file w)) = downloadUrl file
  /\ (enrichmentFails encodeURIComponent env parsed w ->
      fst (enrich encodeURIComponent env parsed file w) = file).
Proof.
  unfold enrich, enrichmentFails, Fails.
  destruct (buildContentsApiUrl encodeURIComponent parsed) as [url|m].
  - run_io. destruct (fetchOutcome env w url) as [d|m]; simpl; repeat split; auto.
    intros (m & Hm). discriminate.
  - unfold ret. simpl. auto.
Qed.

(** A file address with a path yields its single descriptor once the
    reference is settled, whatever the network answers. *)
Lemma getContentsWithRef_blob (parsed : ParsedGitHubUrl) (onProgress : bool) (w : World)
    (p : string) :
  type parsed = Blob -> path parsed = Some p -> p <> "" ->
  exists f,
    fst (getContentsWithRef encodeURIComponent env parsed onProgress w) = Ok [f]
    /\ f_path f = p
    /\ downloadUrl f = getRawUrl parsed p
    /\ (enrichmentFails encodeURIComponent env parsed w -> size f = 0 /\ sha f = Some "").
Proof.
  intros Ht Hpath Hp. unfold getContentsWithRef.
  rewrite Ht, Hpath. cbn [PathType_eqb JS.truthy andb].
  rewrite (proj2 (nonempty_true p) Hp), (or_else_some _ Hp).
  set (file := {| f_path := p; downloadUrl := getRawUrl parsed p; size := 0; sha := Some "" |}).
  destruct (enrich_keeps parsed file w) as (Hfp & Hurl & Hfail).
  unfold bind at 1.
  destruct (enrich encodeURIComponent env parsed file w) as [f w1] eqn:E.
  cbn [fst] in *. exists f.
  unfold bind, ret. destruct (callOnProgress onProgress 1 w1) as [u w2].
  cbn [fst]. repeat split; auto.
  - now rewrite (Hfail H).
  - now rewrite (Hfail H).
Qed.

(** C4 (amended).  A file address whose path is present yields exactly
    one descriptor, that of the path, whenever discovery returns; it fails
    only when the reference was absent and the lookup of the default
    branch failed.  A file address without a path is listed like a folder. *)
Theorem C4_blob_with_path_yields_one (parsed : ParsedGitHubUrl) (onProgress : bool)
    (w : World) (p : string) :
  type parsed = Blob -> path parsed = Some p -> p <> "" ->
  match fst (fst (getContents encodeURIComponent env parsed onProgress w)) with
  | Ok files => exists f, files = [f] /\ f_path f = p
  | Throw m =>
      JS.truthy (ref parsed) = false
      /\ fetchOutcome env w (defaultBranchUrl (owner parsed) (repo parsed)) = Throw m
  end.
Proof.
  intros Ht Hpath Hp. unfold getContents.
  destruct (JS.truthy (ref parsed)) eqn:Href; cbn [negb].
  - unfold bind, ret.
    destruct (getContentsWithRef_blob parsed onProgress w Ht Hpath Hp) as (f & Hf & Hfp & _).
    destruct (getContentsWithRef encodeURIComponent env parsed onProgress w) as [r w1].
    cbn [fst] in *. subst r. eauto.
  - unfold bind at 1. unfold getDefaultBranch. run_io.
    destruct (fetchOutcome env w (defaultBranchUrl (owner parsed) (repo parsed)))
      as [d|m] eqn:Ed; simpl.
    + set (parsed' := withRef parsed (default_branch d)).
      set (w1 := w ++ [EvFetch (defaultBranchUrl (owner parsed) (repo parsed)) (Ok d)]).
      destruct (getContentsWithRef_blob parsed' onProgress w1 (p := p)) as (f & Hf & Hfp & _);
        auto.
      destruct (getContentsWithRef encodeURIComponent env parsed' onProgress w1) as [r w2].
      cbn [fst] in *. subst r. eauto.
    + auto.
Qed.

(** C10.  For a file address with reference and path, discovery never
    fails: it returns the single descriptor of the path, whose download
    URL is built from the address, and whose size is 0 and hash empty
    when the enrichment failed. *)
Theorem C10_blob_discovery_never_fails (parsed : ParsedGitHubUrl) (onProgress : bool)
    (w : World) (r p : string) :
  type parsed = Blob ->
  ref parsed = Some r -> r <> "" ->
  path parsed = Some p -> p <> "" ->
  exists f,
    fst (getContents encodeURIComponent env parsed onProgress w) = (Ok [f], parsed)
    /\ f_path f = p
    /\ downloadUrl f = getRawUrl parsed p
    /\ (enrichmentFails encodeURIComponent env parsed w -> size f = 0 /\ sha f = Some "").
Proof.
  intros Ht Href Hr Hpath Hp.
  destruct (getContentsWithRef_blob parsed onProgress w Ht Hpath Hp) as (f & Hf & Hrest).
  exists f. split; [|exact Hrest].
  unfold getContents. rewrite Href. cbn [JS.truthy].
  rewrite (proj2 (nonempty_true r) Hr). cbn [negb]. unfold bind, ret.
  destruct (getContentsWithRef encodeURIComponent env parsed onProgress w) as [res w1].
  cbn [fst] in *. now subst res.
Qed.

End SingleFile.

Lemma C4_blob_with_path_yields_one_witness :
  match fst (fst (getContents Scenario.encodePlain Scenario.offlineEnv
                    {| owner := "o"; repo := "r"; ref := Some "main";
                       path := Some "README.md"; type := Blob |} true [])) with
  | Ok files => exists f, files = [f] /\ f_path f = "README.md"
  | Throw m => False
  end.
Proof.
  pose proof (C4_blob_with_path_yields_one Scenario.encodePlain Scenario.offlineEnv
                {| owner := "o"; repo := "r"; ref := Some "main";
                   path := Some "README.md"; type := Blob |} true []
                (p := "README.md") eq_refl eq_refl ltac:(discriminate)) as H.
  destruct (fst (fst (getContents _ _ _ _ _))) as [files|m].
  - exact H.
  - destruct H as [H _]. discriminate H.
Defined.

(** C4, as stated, fails: a file address without a path is listed like a
    folder, and yields as many descriptors as the listing has files. *)
Lemma C4_counterexample :
  parseGitHubUrl URL_model "https://github.com/o/r/blob/main" = Ok address_o_r_blob_main
  /\ fst (getContents Scenario.encodePlain
            (Scenario.listingEnv [Scenario.fileItem "a.txt"; Scenario.fileItem "b.txt"])
            address_o_r_blob_main true [])
     = (Ok [fileOfItem address_o_r_blob_main (Scenario.fileItem "a.txt");
            fileOfItem address_o_r_blob_main (Scenario.fileItem "b.txt")],
        address_o_r_blob_main)
  /\ fst (getContents Scenario.encodePlain (Scenario.listingEnv [])
            address_o_r_blob_main true [])
     = (Ok [], address_o_r_blob_main).
Proof. repeat split; reflexivity. Qed.

Lemma C10_blob_discovery_never_fails_witness :
  exists f,
    fst (getContents Scenario.encodePlain Scenario.offlineEnv address_o_r_blob_intro true [])
    = (Ok [f], address_o_r_blob_intro)
    /\ downloadUrl f = "https://raw.githubusercontent.com/o/r/main/docs/guide/intro.md"
    /\ size f = 0 /\ sha f = Some "".
Proof.
  destruct (C10_blob_discovery_never_fails Scenario.encodePlain Scenario.offlineEnv
              address_o_r_blob_intro true [] (r := "main") (p := "docs/guide/intro.md")
              eq_refl eq_refl ltac:(discriminate) eq_refl ltac:(discriminate))
    as (f & Hrun & _ & Hurl & Hfail).
  exists f. split; [exact Hrun|]. split; [exact Hurl|].
  apply Hfail. unfold enrichmentFails, Fails. simpl. eexists. reflexivity.
Defined.

(* ------------------------------------------------------------------ *)
(** ** Requests made by discovery *)

Lemma fetchedUrls_app (a b : list Event) :
  fetchedUrls (a ++ b) = fetchedUrls a ++ fetchedUrls b.
Proof.
  induction a as [|e a IH]; [reflexivity|].
  destruct e; simpl; now rewrite ?IH.
Qed.

Lemma fetchedUrls_progressEvents (onProgress : bool) (n : nat) :
  forall count, fetchedUrls (progressEvents onProgress count n) = [].
Proof.
  induction n as [|n IH]; intros count; [reflexivity|].
  rewrite progressEvents_snoc, fetchedUrls_app, IH. now destruct onProgress.
Qed.

Section Requests.

Variable encodeURIComponent : string -> result string.
Variable env : Env.

Lemma treeUrl_longer (parsed : ParsedGitHubUrl) :
  longerThanRepoUrl parsed (buildTreeApiUrl parsed).
Proof.
  unfold longerThanRepoUrl, buildTreeApiUrl, defaultBranchUrl.
  rewrite !length_append. cbn [String.length]. lia.
Qed.

Lemma contentsUrl_longer (parsed : ParsedGitHubUrl) (u : string) :
  buildContentsApiUrl encodeURIComponent parsed = Ok u -> longerThanRepoUrl parsed u.
Proof.
  unfold longerThanRepoUrl, buildContentsApiUrl, defaultBranchUrl.
  destruct (JS.truthy (path parsed)), (JS.truthy (ref parsed));
    try destruct (encodeURIComponent _); intros H; try discriminate;
    injection H as <-;
    repeat first [rewrite length_append | progress cbn [String.length]]; lia.
Qed.

(** The listing makes one request, for the tree. *)
Lemma getTreeContents_requests (parsed : ParsedGitHubUrl) (onProgress : bool) (w : World) :
  exists delta,
    snd (getTreeContents env parsed onProgress w) = w ++ delta
    /\ fetchedUrls delta = [buildTreeApiUrl parsed].
Proof.
  unfold getTreeContents, bind, fetch.
  destruct (fetchOutcome env w (buildTreeApiUrl parsed)) as [d|m] eqn:E.
  - destruct (tree d) as [items|].
    + rewrite treeLoop_run. unfold ret. cbn [snd]. rewrite <- app_assoc.
      eexists. split; [reflexivity|].
      cbn [app fetchedUrls]. now rewrite fetchedUrls_progressEvents.
    + unfold ret. cbn [snd]. eexists. split; reflexivity.
  - unfold ret. cbn [snd]. eexists. split; reflexivity.
Qed.

(** Once the reference is settled, no request goes to the repository URL. *)
Lemma getContentsWithRef_requests (parsed : ParsedGitHubUrl) (onProgress : bool) (w : World) :
  exists delta,
    snd (getContentsWithRef encodeURIComponent env parsed onProgress w) = w ++ delta
    /\ forall u, In u (fetchedUrls delta) -> longerThanRepoUrl parsed u.
Proof.
  unfold getContentsWithRef.
  destruct (PathType_eqb (type parsed) Blob && JS.truthy (path parsed)).
  - unfold enrich.
    destruct (buildContentsApiUrl encodeURIComponent parsed) as [url|m] eqn:Eu.
    + exists (EvFetch url (fetchOutcome env w url)
              :: (if onProgress then [EvOnProgress 1] else [])).
      split.
      * destruct onProgress; run_io; rewrite <- ?app_assoc; reflexivity.
      * intros u Hu. cbn [fetchedUrls] in Hu. destruct Hu as [<- | Hu].
        -- now apply contentsUrl_longer.
        -- destruct onProgress; destruct Hu.
    + exists (if onProgress then [EvOnProgress 1] else []).
      split.
      * destruct onProgress; run_io; rewrite ?app_nil_r; reflexivity.
      * intros u Hu. destruct onProgress; destruct Hu.
  - destruct (getTreeContents_requests parsed onProgress w) as (delta & Hd & Hu).
    exists delta. split; [exact Hd|].
    intros u Hin. rewrite Hu in Hin. destruct Hin as [<- | []]. apply treeUrl_longer.
Qed.

(** With a reference, discovery does not ask for the default branch. *)
Lemma getContents_no_lookup (parsed : ParsedGitHubUrl) (onProgress : bool) (w : World) :
  JS.truthy (ref parsed) = true ->
  exists delta,
    snd (getContents encodeURIComponent env parsed onProgress w) = w ++ delta
    /\ ~ In (defaultBranchUrl (owner parsed) (repo parsed)) (fetchedUrls delta).
Proof.
  intros Href.
  destruct (getContentsWithRef_requests parsed onProgress w) as (delta & Hd & Hu).
  exists delta. split.
  - unfold getContents. rewrite Href. cbn [negb]. unfold bind, ret.
    destruct (getContentsWithRef encodeURIComponent env parsed onProgress w). exact Hd.
  - intros Hin. specialize (Hu _ Hin). unfold longerThanRepoUrl in Hu. lia.
Qed.

(** Without a reference, discovery starts with that request. *)
Lemma getContents_lookup (parsed : ParsedGitHubUrl) (onProgress : bool) (w : World) :
  JS.truthy (ref parsed) = false ->
  exists r delta,
    snd (getContents encodeURIComponent env parsed onProgress w)
    = w ++ EvFetch (defaultBranchUrl (owner parsed) (repo parsed)) r :: delta.
Proof.
  intros Href. unfold getContents. rewrite Href. cbn [negb].
  unfold bind at 1. unfold getDefaultBranch. run_io.
  destruct (fetchOutcome env w (defaultBranchUrl (owner parsed) (repo parsed))) as [d|m].
  - set (w1 := w ++ _).
    destruct (getContentsWithRef_requests (withRef parsed (default_branch d)) onProgress w1)
      as (delta & Hd & _).
    destruct (getContentsWithRef _ _ _ _ w1) as [res w2]. cbn [snd] in *.
    subst w2 w1. rewrite <- app_assoc. exists (Ok d), delta. reflexivity.
  - simpl. exists (Throw m), []. reflexivity.
Qed.

End Requests.

(** C9.  A resolved address is of kind root exactly when it has neither
    reference nor path; a folder or file address has a reference; hence
    discovery asks for the default branch of a resolved address only when
    the address is of kind root. *)
Theorem C9_root_iff_no_reference (URL : string -> option URLObject) (url : string)
    (a : ParsedGitHubUrl) :
  parseGitHubUrl URL url = Ok a ->
  (type a = Root <-> ref a = None /\ path a = None)
  /\ (type a <> Root -> JS.truthy (ref a) = true)
  /\ (forall enc env onProgress w,
        exists delta,
          snd (getContents enc env a onProgress w) = w ++ delta
          /\ (In (defaultBranchUrl (owner a) (repo a)) (fetchedUrls delta) <-> type a = Root)).
Proof.
  intros H. apply parseGitHubUrl_ok in H as (u & _ & _ & Hshape).
  pose proof (pathParts_nonempty u) as Hne.
  destruct Hshape as [(o & r & _ & Ha) | (o & r & t & rf & rest & Hp & Ht & _ & _ & Href & _)].
  - subst a. cbn [type ref path]. split; [|split].
    + split; auto.
    + congruence.
    + intros enc env onProgress w.
      destruct (getContents_lookup enc env
                  {| owner := o; repo := JS.stripGitSuffix r; ref := None; path := None;
                     type := Root |} onProgress w eq_refl) as (res & delta & Hd).
      eexists. split; [exact Hd|]. cbn [owner repo fetchedUrls]. split; auto.
      intros _. now left.
  - assert (Hrf : rf <> "").
    { rewrite Hp in Hne. rewrite !Forall_cons_iff in Hne. tauto. }
    assert (Hty : type a <> Root) by (destruct Ht as [[_ ->] | [_ ->]]; discriminate).
    assert (Htr : JS.truthy (ref a) = true).
    { rewrite Href. now apply nonempty_true. }
    split; [|split].
    + split; [congruence|]. intros [E _]. congruence.
    + auto.
    + intros enc env onProgress w.
      destruct (getContents_no_lookup enc env a onProgress w Htr) as (delta & Hd & Hn).
      exists delta. split; [exact Hd|]. split; [tauto | congruence].
Qed.

Lemma C9_root_iff_no_reference_witness :
  (type address_o_r_main_src = Root
   <-> ref address_o_r_main_src = None /\ path address_o_r_main_src = None)
  /\ JS.truthy (ref address_o_r_main_src) = true.
Proof.
  pose proof (C9_root_iff_no_reference URL_model "https://github.com/o/r/tree/main/src"
                (a := address_o_r_main_src) eq_refl) as (H1 & H2 & _).
  split; [exact H1|]. apply H2. discriminate.
Defined.

(* ------------------------------------------------------------------ *)
(** ** Base names *)

Lemma takeWhile_all {A} (f : A -> bool) (l : list A) :
  forallb f l = true -> takeWhile f l = l.
Proof.
  induction l as [|x l IH]; simpl; [reflexivity|].
  intros H. apply andb_true_iff in H as [Hx Hl]. rewrite Hx. f_equal. auto.
Qed.

Lemma takeWhile_stop {A} (f : A -> bool) (l : list A) (y : A) (r : list A) :
  forallb f l = true -> f y = false -> takeWhile f (l ++ y :: r) = l.
Proof.
  induction l as [|x l IH]; simpl; intros Hl Hy.
  - now rewrite Hy.
  - apply andb_true_iff in Hl as [Hx Hl]. rewrite Hx. f_equal. auto.
Qed.

Lemma takeWhile_forallb {A} (f : A -> bool) (l : list A) :
  forallb f (takeWhile f l) = true.
Proof.
  induction l as [|x l IH]; simpl; [reflexivity|].
  destruct (f x) eqn:E; simpl; [now rewrite E | reflexivity].
Qed.

Lemma dropWhile_none {A} (f : A -> bool) (l r : list A) :
  l <> [] -> forallb (fun x => negb (f x)) l = true -> dropWhile f (l ++ r) = l ++ r.
Proof.
  destruct l as [|x l]; [congruence|]. simpl. intros _ H.
  apply andb_true_iff in H as [Hx _]. apply negb_true_iff in Hx. now rewrite Hx.
Qed.

Lemma forallb_rev {A} (f : A -> bool) (l : list A) :
  forallb f (rev l) = forallb f l.
Proof.
  induction l as [|x l IH]; simpl; [reflexivity|].
  rewrite forallb_app, IH. simpl. rewrite andb_true_r. apply andb_comm.
Qed.

Lemma list_ascii_of_append (a b : string) :
  list_ascii_of_string (a +++ b) = list_ascii_of_string a ++ list_ascii_of_string b.
Proof. induction a as [|c a IH]; simpl; congruence. Qed.

Lemma rev_nonempty {A} (l : list A) : l <> [] -> rev l <> [].
Proof.
  destruct l as [|x l]; [congruence|]. simpl. intros _ H.
  apply app_eq_nil in H as [_ H]. discriminate.
Qed.

(** The base name of a slash-free, non-empty name is the name. *)
Lemma basename_name (name : string) :
  name <> "" -> slashFree name = true -> basename name = name.
Proof.
  intros Hne Hfree. unfold basename, slashFree in *.
  assert (Hl : list_ascii_of_string name <> []) by (destruct name; simpl; congruence).
  rewrite <- (app_nil_r (rev (list_ascii_of_string name))).
  rewrite dropWhile_none; [|now apply rev_nonempty|now rewrite forallb_rev].
  rewrite app_nil_r, takeWhile_all; [|now rewrite forallb_rev].
  rewrite rev_involutive. apply string_of_list_ascii_of_string.
Qed.

(** Whatever the directory part, the base name is the name after the last
    slash. *)
Lemma basename_dir_name (dir name : string) :
  name <> "" -> slashFree name = true -> basename (dir +++ "/" +++ name) = name.
Proof.
  intros Hne Hfree. unfold basename, slashFree in *.
  assert (Hl : list_ascii_of_string name <> []) by (destruct name; simpl; congruence).
  rewrite !list_ascii_of_append. cbn [list_ascii_of_string app].
  rewrite rev_app_distr. cbn [rev]. rewrite <- app_assoc. cbn [app].
  rewrite dropWhile_none; [|now apply rev_nonempty|now rewrite forallb_rev].
  rewrite takeWhile_stop; [|now rewrite forallb_rev|reflexivity].
  rewrite rev_involutive. apply string_of_list_ascii_of_string.
Qed.

Lemma basename_slashFree (filePath : string) : slashFree (basename filePath) = true.
Proof.
  unfold slashFree, basename. rewrite list_ascii_of_string_of_list_ascii.
  rewrite forallb_rev. apply takeWhile_forallb.
Qed.

(** ** Pieces between slashes *)

Lemma split_nonempty (s : string) : JS.split s <> [].
Proof.
  induction s as [|c s IH]; simpl; [discriminate|].
  destruct (Ascii.eqb c "/"); [discriminate|].
  destruct (JS.split s); discriminate.
Qed.

Lemma join_cons (x : string) (xs : list string) :
  xs <> [] -> JS.join (x :: xs) = x +++ "/" +++ JS.join xs.
Proof. destruct xs; [congruence | reflexivity]. Qed.

Lemma join_split (s : string) : JS.join (JS.split s) = s.
Proof.
  induction s as [|c s IH]; [reflexivity|]. cbn [JS.split].
  destruct (Ascii.eqb c "/") eqn:E.
  - apply Ascii.eqb_eq in E. subst c.
    rewrite join_cons by apply split_nonempty. now rewrite IH.
  - pose proof (split_nonempty s) as Hne.
    destruct (JS.split s) as [|x xs]; [congruence|].
    destruct xs as [|y ys].
    + simpl in *. congruence.
    + rewrite join_cons by discriminate. rewrite join_cons in IH by discriminate.
      change (String c x +++ "/" +++ JS.join (y :: ys))
        with (String c (x +++ "/" +++ JS.join (y :: ys))).
      now rewrite IH.
Qed.

Lemma split_slashFree (s : string) : Forall (fun x => slashFree x = true) (JS.split s).
Proof.
  induction s as [|c s IH]; cbn [JS.split].
  - repeat constructor.
  - destruct (Ascii.eqb c "/") eqn:E.
    + constructor; [reflexivity | exact IH].
    + pose proof (split_nonempty s) as Hne.
      destruct (JS.split s) as [|x xs]; [congruence|].
      inversion IH as [|? ? Hx Hxs]; subst. constructor; [|exact Hxs].
      unfold slashFree in *. simpl. unfold isSlash at 1. now rewrite E, Hx.
Qed.

Lemma join_last (xs : list string) (l : string) :
  JS.join (xs ++ [l]) = l \/ exists dir, JS.join (xs ++ [l]) = dir +++ "/" +++ l.
Proof.
  induction xs as [|x xs IH].
  - now left.
  - right. cbn [app]. rewrite join_cons by (destruct xs; discriminate).
    destruct IH as [-> | (dir & ->)].
    + now exists x.
    + exists (x +++ "/" +++ dir). now rewrite !append_assoc.
Qed.

(** The code's [basename] is the specification's final segment, unless the
    path ends in a slash. *)
Lemma basename_finalSegment (filePath : string) :
  finalSegment filePath <> "" -> basename filePath = finalSegment filePath.
Proof.
  unfold finalSegment. intros Hne.
  pose proof (split_nonempty filePath) as Hs.
  pose proof (split_slashFree filePath) as Hfree.
  pose proof (join_split filePath) as Hj.
  destruct (exists_last Hs) as (xs & l & E). rewrite E in *.
  rewrite last_last in *.
  apply Forall_app in Hfree as [_ Hl]. apply Forall_inv in Hl.
  rewrite <- Hj.
  destruct (join_last xs l) as [-> | (dir & ->)].
  - now apply basename_name.
  - now apply basename_dir_name.
Qed.

(** C7.  For a file address with a path, the relative path of every
    descriptor is the base name of its full path, at any depth: it holds no
    slash, it is the final segment of the full path, and
    [docs/guide/intro.md] gives [intro.md]. *)
Theorem C7_blob_relative_path_is_basename (parsed : ParsedGitHubUrl) (filePath : string) :
  type parsed = Blob -> JS.truthy (path parsed) = true ->
  getRelativePath filePath parsed = basename filePath
  /\ slashFree (getRelativePath filePath parsed) = true
  /\ (finalSegment filePath <> "" -> getRelativePath filePath parsed = finalSegment filePath)
  /\ (forall dir name, name <> "" -> slashFree name = true ->
        filePath = dir +++ "/" +++ name -> getRelativePath filePath parsed = name)
  /\ (filePath = "docs/guide/intro.md" -> getRelativePath filePath parsed = "intro.md").
Proof.
  intros Ht Hp.
  assert (E : getRelativePath filePath parsed = basename filePath).
  { unfold getRelativePath. rewrite Ht, Hp. cbn [PathType_eqb andb]. reflexivity. }
  rewrite E. split; [reflexivity|]. split; [apply basename_slashFree|].
  split; [apply basename_finalSegment|]. split.
  - intros dir name Hne Hfree ->. now apply basename_dir_name.
  - intros ->. reflexivity.
Qed.

Lemma C7_blob_relative_path_is_basename_witness :
  getRelativePath "docs/guide/intro.md" address_o_r_blob_intro = "intro.md"
  /\ getRelativePath "docs/guide/intro.md" address_o_r_blob_intro
     = finalSegment "docs/guide/intro.md".
Proof.
  destruct (C7_blob_relative_path_is_basename address_o_r_blob_intro "docs/guide/intro.md"
              eq_refl eq_refl)
    as (_ & _ & Hfinal & _ & Hex).
  split; [exact (Hex eq_refl) | apply Hfinal; discriminate].
Defined.

(* ------------------------------------------------------------------ *)
(** ** Histories of the materializer *)

Lemma attempts_app (a b : list Event) : attempts (a ++ b) = attempts a ++ attempts b.
Proof.
  induction a as [|e a IH]; [reflexivity|].
  destruct e as [| | | | | | | |o| |]; simpl; auto. destruct o; simpl; now rewrite ?IH.
Qed.

Lemma downloads_app (a b : list Event) : downloads (a ++ b) = downloads a ++ downloads b.
Proof. induction a as [|e a IH]; [reflexivity|]. destruct e; simpl; now rewrite ?IH. Qed.

Lemma mkdirs_app (a b : list Event) : mkdirs (a ++ b) = mkdirs a ++ mkdirs b.
Proof. induction a as [|e a IH]; [reflexivity|]. destruct e; simpl; now rewrite ?IH. Qed.



Lemma failures_app (a b : list Event) : failures (a ++ b) = failures a + failures b.
Proof. induction a as [|e a IH]; [reflexivity|]. simpl. rewrite IH. lia. Qed.

(** Report lines are neither attempts nor operations. *)
Lemma report_silent (l : list Event) :
  forallb isReportLine l = true ->
  attempts l = [] /\ downloads l = [] /\ mkdirs l = [] /\ appends l = []
  /\ finalizes l = 0 /\ failures l = 0.
Proof.
  induction l as [|e l IH]; [simpl; auto 10|].
  cbn [forallb]. intros H. apply andb_true_iff in H as [He Hl].
  destruct (IH Hl) as (H1 & H2 & H3 & H4 & H5 & H6).
  destruct e as [| | | | | | | |o| |]; try discriminate.
  destruct o; try discriminate; simpl; auto 10.
Qed.

Section Materializer.

Variable join : string -> string -> string.
Variable dirname : string -> string.
Variable env : Env.

Lemma printErrors_run (errs : list DownloadError) :
  forall w, exists delta,
    printErrors errs w = (tt, w ++ delta) /\ forallb isReportLine delta = true.
Proof.
  induction errs as [|e errs IH]; intros w.
  - exists []. unfold printErrors, ret. now rewrite app_nil_r.
  - cbn [printErrors]. run_io.
    destruct (IH (w ++ [EvOut (OutFailedFile (err_file e) (err_error e))])) as (d & Hd & Hr).
    rewrite Hd. eexists. rewrite <- app_assoc. split; [reflexivity|]. exact Hr.
Qed.

(** The report prints the number of failures whenever there is one. *)
Lemma reportErrors_run (errs : list DownloadError) (w : World) :
  exists delta,
    reportErrors errs w = (tt, w ++ delta)
    /\ forallb isReportLine delta = true
    /\ (0 < length errs -> In (EvOut (OutFailedCount (length errs))) delta).
Proof.
  unfold reportErrors.
  destruct (0 <? length errs) eqn:E.
  - unfold bind, emit, ret.
    destruct (printErrors_run (JS.takeArr 5 errs) (w ++ [EvOut (OutFailedCount (length errs))]))
      as (d & Hd & Hr).
    rewrite Hd.
    destruct (5 <? length errs).
    + exists (EvOut (OutFailedCount (length errs)) :: d ++ [EvOut (OutMore (length errs - 5))]).
      rewrite <- !app_assoc. split; [reflexivity|]. split.
      * cbn [forallb isReportLine andb]. rewrite forallb_app, Hr. reflexivity.
      * intros _. now left.
    + exists (EvOut (OutFailedCount (length errs)) :: d).
      rewrite <- !app_assoc. split; [reflexivity|]. split.
      * cbn [forallb isReportLine andb]. exact Hr.
      * intros _. now left.
  - exists []. unfold ret. rewrite app_nil_r. split; [reflexivity|]. split; [reflexivity|].
    apply Nat.ltb_ge in E. lia.
Qed.

End Materializer.

Section Batches.

Variable join : string -> string -> string.
Variable dirname : string -> string.
Variable env : Env.

(** One file of the directory mode: the directory is always asked for, and
    the attempt fails exactly when one of its operations fails. *)
Lemma fetchAndWrite_run (file : GitHubFile) (outputPath : string) (w : World) :
  exists delta res,
    fetchAndWrite dirname env file outputPath w = (res, w ++ delta)
    /\ mkdirs delta = [dirname outputPath]
    /\ attempts delta = []
    /\ failures delta = (if is_ok res then 0 else 1).
Proof.
  unfold fetchAndWrite, bind, mkdir, downloadFile, writeFile, ret.
  destruct (fs_mkdir env w (dirname outputPath)) as [[]|m1] eqn:E1.
  2: { eexists [_], _. split; [reflexivity|]. repeat split. }
  match goal with |- context [downloadOutcome env ?w1 ?u] =>
    destruct (downloadOutcome env w1 u) as [content|m2] eqn:E2 end.
  2: { eexists [_; _], _. rewrite <- app_assoc. split; [reflexivity|]. repeat split. }
  match goal with |- context [fs_writeFile env ?w2 ?o ?c] =>
    destruct (fs_writeFile env w2 o c) as [[]|m3] eqn:E3 end.
  - eexists [_; _; _], _. rewrite <- !app_assoc. split; [reflexivity|]. repeat split.
  - eexists [_; _; _], _. rewrite <- !app_assoc. split; [reflexivity|]. repeat split.
Qed.

Lemma filesLoop_run (parsed : ParsedGitHubUrl) (outputDir : string) (single : bool)
    (total : nat) (files : list GitHubFile) :
  forall (st : Progress) (errs : list DownloadError) (w : World),
  exists delta st' errs',
    filesLoop join dirname env parsed outputDir single total files st errs w
    = ((st', errs'), w ++ delta)
    /\ attempts delta = relativePaths parsed files
    /\ mkdirs delta = map (fun f => dirname (outputPathOf join parsed outputDir single f)) files
    /\ current st' = current st + length files
    /\ length errs' = length errs + failures delta.
Proof.
  induction files as [|file rest IH]; intros st errs w.
  - exists [], st, errs. unfold filesLoop, ret. rewrite app_nil_r. simpl. auto.
  - cbn [filesLoop]. unfold bind at 1.
    destruct (fetchAndWrite_run file (outputPathOf join parsed outputDir single file) w)
      as (d1 & res & Hrun1 & Hmk1 & Hatt1 & Hfail1).
    unfold outputPathOf in Hrun1 at 1. rewrite Hrun1.
    destruct res as [content|message]; cbn [is_ok] in Hfail1.
    + cbv beta iota zeta delta [bind updateProgress emit ret].
      match goal with |- context [filesLoop _ _ _ _ _ _ _ rest ?st1 ?errs1 ?w1] =>
        destruct (IH st1 errs1 w1) as (d & st' & errs' & Hrun & Hatt & Hmk & Hcur & Herr)
      end.
      rewrite Hrun. eexists (d1 ++ _ :: d), st', errs'.
      rewrite <- !app_assoc. split; [reflexivity|].
      rewrite attempts_app, mkdirs_app, failures_app, Hatt1, Hmk1, Hfail1.
      cbn [attempts mkdirs failures isFailure app map relativePaths length current] in *.
      rewrite Hatt, Hmk, Hcur, Herr. repeat split; auto; lia.
    + cbv beta iota zeta delta [bind updateProgress emit ret].
      match goal with |- context [filesLoop _ _ _ _ _ _ _ rest ?st1 ?errs1 ?w1] =>
        destruct (IH st1 errs1 w1) as (d & st' & errs' & Hrun & Hatt & Hmk & Hcur & Herr)
      end.
      rewrite Hrun. eexists (d1 ++ _ :: d), st', errs'.
      rewrite <- !app_assoc. split; [reflexivity|].
      rewrite attempts_app, mkdirs_app, failures_app, Hatt1, Hmk1, Hfail1.
      cbn [attempts mkdirs failures isFailure app map relativePaths length current] in *.
      rewrite Hatt, Hmk, Hcur, Herr, length_app. cbn [length]. repeat split; auto; lia.
Qed.

(** The whole of [downloadFiles]. *)
Lemma downloadFiles_run (files : list GitHubFile) (outputDir : string)
    (parsed : ParsedGitHubUrl) (outputIsFilePath : bool) (w : World) :
  let single := PathType_eqb (type parsed) Blob && (length files =? 1) && outputIsFilePath in
  exists delta s,
    downloadFiles join dirname env files outputDir parsed outputIsFilePath w = (s, w ++ delta)
    /\ attempts delta = relativePaths parsed files
    /\ mkdirs delta = map (fun f => dirname (outputPathOf join parsed outputDir single f)) files
    /\ total s = length files
    /\ attempted s = length files
    /\ length (errors s) = failures delta
    /\ successCount s = (Z.of_nat (length files) - Z.of_nat (failures delta))%Z
    /\ (0 < failures delta -> In (EvOut (OutFailedCount (failures delta))) delta)
    /\ In (EvOut (OutDownloaded (successCount s) outputDir)) delta.
Proof.
  intros single. unfold downloadFiles. fold single.
  unfold bind at 1. unfold emit at 1.
  unfold bind at 1.
  destruct (filesLoop_run parsed outputDir single (length files) files initialProgress []
              (w ++ [EvOut OutDownloading]))
    as (d & st' & errs' & Hrun & Hatt & Hmk & Hcur & Herr).
  rewrite Hrun. unfold bind at 1.
  destruct (reportErrors_run errs' ((w ++ [EvOut OutDownloading]) ++ d))
    as (dr & Hrep & Hlines & Hcount).
  rewrite Hrep. unfold bind, emit, ret.
  destruct (report_silent _ Hlines) as (R1 & R2 & R3 & R4 & R5 & R6).
  cbn [length initialProgress current Nat.add] in Hcur, Herr.
  eexists (EvOut OutDownloading :: d ++ dr ++ [_]), _.
  rewrite <- !app_assoc. split; [reflexivity|].
  cbn [total attempted errors successCount attempts mkdirs failures isFailure].
  rewrite !attempts_app, !mkdirs_app, !failures_app, R1, R3, R6, Hatt, Hmk, Hcur, Herr.
  cbn [attempts mkdirs failures isFailure]. rewrite ?app_nil_r, ?Nat.add_0_r, ?Nat.add_0_l.
  repeat split; auto.
  - intros Hpos. right. apply in_or_app. right. apply in_or_app. left.
    rewrite <- Herr. apply Hcount. lia.
  - right. apply in_or_app. right. apply in_or_app. right. now left.
Qed.

End Batches.

(* ================================================================== *)
(** * Further properties of the resolver *)

Section ResolverMore.

Variable URL : string -> option URLObject.

(** The URLs that [parseGitHubUrl] accepts are exactly those that parse, on
    a host containing [github.com], with either two path segments or at
    least four of which the third is [tree] or [blob]. *)
Theorem parseGitHubUrl_accepts_iff (url : string) :
  (exists a, parseGitHubUrl URL url = Ok a)
  <-> exists u, URL (cleanUrl url) = Some u
        /\ JS.includes (hostname u) "github.com" = true
        /\ (length (pathPartsOf u) = 2
            \/ (4 <= length (pathPartsOf u)
                /\ (nth 2 (pathPartsOf u) "" = "tree" \/ nth 2 (pathPartsOf u) "" = "blob"))).
Proof.
  split.
  - intros (a & H). apply parseGitHubUrl_ok in H as (u & Hu & Hh & Hshape).
    exists u. split; [exact Hu|]. split; [exact Hh|].
    destruct Hshape as [(o & r & -> & _) | (o & r & t & rf & rest & -> & Ht & _)].
    + now left.
    + right. cbn [length nth]. split; [lia|]. destruct Ht as [[-> _] | [-> _]]; auto.
  - intros (u & Hu & Hh & Hshape).
    unfold parseGitHubUrl. fold (cleanUrl url). rewrite Hu, Hh. cbn [negb].
    fold (pathPartsOf u).
    destruct (pathPartsOf u) as [|o [|r [|t [|rf rest]]]]; cbn [length nth] in *;
      try (destruct Hshape as [Hshape | [Hshape _]]; discriminate || lia).
    + eexists. reflexivity.
    + destruct Hshape as [Hshape | [_ Ht]]; [discriminate|].
      simpl. destruct Ht as [-> | ->]; simpl; eexists; reflexivity.
Qed.

(** The reference of a resolved address is one non-empty segment: it holds
    no slash, so a branch name with a slash is cut at its first slash. *)
Theorem parsed_ref_is_one_segment (url : string) (a : ParsedGitHubUrl) (rf : string) :
  parseGitHubUrl URL url = Ok a -> ref a = Some rf ->
  rf <> "" /\ slashFree rf = true.
Proof.
  intros H Href. apply parseGitHubUrl_ok in H as (u & _ & _ & Hshape).
  destruct Hshape as [(o & r & _ & ->) | (o & r & t & rf' & rest & Hp & _ & _ & _ & Hr & _)].
  - discriminate.
  - rewrite Hr in Href. injection Href as <-.
    assert (Hin : In rf' (pathPartsOf u)) by (rewrite Hp; simpl; auto).
    unfold pathPartsOf, JS.filterBoolean in Hin. apply filter_In in Hin as [Hin Hne].
    split; [now apply nonempty_true|].
    pose proof (split_slashFree (pathname u)) as Hfree.
    rewrite Forall_forall in Hfree. now apply Hfree.
Qed.

End ResolverMore.

Lemma parsed_ref_is_one_segment_witness :
  "feature" <> "" /\ slashFree "feature" = true.
Proof.
  apply (parsed_ref_is_one_segment URL_model "https://github.com/o/r/tree/feature/x/src"
           (a := {| owner := "o"; repo := "r"; ref := Some "feature"; path := Some "x/src";
                    type := Tree |}) eq_refl eq_refl).
Defined.

Lemma owner_repo_of_segments_witness :
  exists u o r rest,
    URL_model (cleanUrl "https://github.com/o/r.git/tree/main") = Some u
    /\ pathPartsOf u = o :: r :: rest
    /\ owner address_o_r_main_src = o /\ o <> ""
    /\ repo address_o_r_main_src = JS.stripGitSuffix r
    /\ (repo address_o_r_main_src = "" <-> r = ".git").
Proof.
  destruct (owner_repo_of_segments URL_model "https://github.com/o/r.git/tree/main"
              (a := {| owner := "o"; repo := "r"; ref := Some "main"; path := None;
                       type := Tree |}) eq_refl)
    as (u & o & r & rest & H).
  exists u, o, r, rest. exact H.
Defined.

(** ** Segments and paths *)

Lemma split_slashFree_app (x s : string) :
  slashFree x = true -> JS.split (x +++ "/" +++ s) = x :: JS.split s.
Proof.
  induction x as [|c x IH]; intros Hfree; [reflexivity|].
  unfold slashFree in Hfree. cbn [list_ascii_of_string forallb] in Hfree.
  apply andb_true_iff in Hfree as [Hc Hx]. apply negb_true_iff in Hc. unfold isSlash in Hc.
  change (String c x +++ "/" +++ s) with (String c (x +++ "/" +++ s)).
  cbn [JS.split]. rewrite Hc, (IH Hx). reflexivity.
Qed.

Lemma split_slashFree_one (x : string) : slashFree x = true -> JS.split x = [x].
Proof.
  induction x as [|c x IH]; intros Hfree; [reflexivity|].
  unfold slashFree in Hfree. cbn [list_ascii_of_string forallb] in Hfree.
  apply andb_true_iff in Hfree as [Hc Hx]. apply negb_true_iff in Hc. unfold isSlash in Hc.
  cbn [JS.split]. rewrite Hc, (IH Hx). reflexivity.
Qed.

(** Joining slash-free pieces and splitting again gives the pieces back. *)
Lemma split_join (xs : list string) :
  xs <> [] -> Forall (fun x => slashFree x = true) xs -> JS.split (JS.join xs) = xs.
Proof.
  induction xs as [|x xs IH]; [congruence|]. intros _ Hfree.
  inversion Hfree as [|? ? Hx Hxs]; subst.
  destruct xs as [|y ys].
  - now apply split_slashFree_one.
  - rewrite join_cons by discriminate.
    rewrite (split_slashFree_app _ _ Hx), IH; [reflexivity | discriminate | exact Hxs].
Qed.

Lemma join_nonempty (x : string) (xs : list string) :
  x <> "" -> JS.nonempty (JS.join (x :: xs)) = true.
Proof.
  intros Hx. destruct x as [|c x]; [congruence|]. destruct xs; reflexivity.
Qed.

Lemma pathParts_slashFree (u : URLObject) :
  Forall (fun x => slashFree x = true) (pathPartsOf u).
Proof.
  apply Forall_forall. intros x Hx. unfold pathPartsOf, JS.filterBoolean in Hx.
  apply filter_In in Hx as [Hx _].
  pose proof (split_slashFree (pathname u)) as H. rewrite Forall_forall in H. auto.
Qed.

(** ** Trailing slashes *)

Lemma trimStart_app_slash (s : string) : JS.trimStart (s +++ "/") = JS.trimStart s +++ "/".
Proof.
  induction s as [|c s IH]; [reflexivity|].
  change (String c s +++ "/") with (String c (s +++ "/")). cbn [JS.trimStart].
  destruct (JS.is_space c); [exact IH | reflexivity].
Qed.

Lemma trimEnd_app_slash (s : string) : JS.trimEnd (s +++ "/") = s +++ "/".
Proof.
  induction s as [|c s IH]; [reflexivity|].
  change (String c s +++ "/") with (String c (s +++ "/")). cbn [JS.trimEnd].
  rewrite IH. destruct s; reflexivity.
Qed.

Lemma stripTrailingSlashes_app_slash (s : string) :
  JS.stripTrailingSlashes (s +++ "/") = JS.stripTrailingSlashes s.
Proof.
  induction s as [|c s IH]; [reflexivity|].
  change (String c s +++ "/") with (String c (s +++ "/")). cbn [JS.stripTrailingSlashes].
  now rewrite IH.
Qed.

Lemma trimEnd_tail (c : ascii) (s : string) :
  JS.trimEnd (String c s) = String c s -> JS.trimEnd s = s.
Proof.
  cbn [JS.trimEnd]. destruct (JS.trimEnd s) as [|d r] eqn:E.
  - destruct (JS.is_space c); [discriminate|]. intros H. now injection H as <-.
  - intros H. now injection H as <-.
Qed.

Lemma trimEnd_trimStart (s : string) :
  JS.trimEnd s = s -> JS.trimEnd (JS.trimStart s) = JS.trimStart s.
Proof.
  induction s as [|c s IH]; intros H; [reflexivity|].
  cbn [JS.trimStart]. destruct (JS.is_space c); [|exact H].
  apply IH. now apply trimEnd_tail in H.
Qed.

Lemma cleanUrl_app_slash (url : string) :
  JS.trimEnd url = url -> cleanUrl (url +++ "/") = cleanUrl url.
Proof.
  intros H. unfold cleanUrl, JS.trim.
  rewrite trimStart_app_slash, trimEnd_app_slash, stripTrailingSlashes_app_slash.
  now rewrite (trimEnd_trimStart H).
Qed.

Section ResolverShape.

Variable URL : string -> option URLObject.

(** A slash added to a URL that does not end in white space changes
    nothing: the two inputs resolve alike, or fail alike. *)
Theorem parseGitHubUrl_ignores_trailing_slash (url : string) :
  JS.trimEnd url = url ->
  parseGitHubUrl URL (url +++ "/") = parseGitHubUrl URL url.
Proof.
  intros H. unfold parseGitHubUrl. fold (cleanUrl (url +++ "/")). fold (cleanUrl url).
  now rewrite (cleanUrl_app_slash H).
Qed.

(** Nothing of the path is lost in a resolved address but a final [.git]
    of the repository: owner, repository segment, marker, reference and the
    pieces of the path are, in this order, the segments of the URL; the
    path, when present, is not empty. *)
Theorem parsed_segments_round_trip (url : string) (a : ParsedGitHubUrl) :
  parseGitHubUrl URL url = Ok a ->
  exists u repoSegment,
    URL (cleanUrl url) = Some u
    /\ repo a = JS.stripGitSuffix repoSegment
    /\ pathPartsOf u = segmentsOf a repoSegment
    /\ path a <> Some "".
Proof.
  intros H. apply parseGitHubUrl_ok in H as (u & Hu & _ & Hshape).
  pose proof (pathParts_nonempty u) as Hne.
  pose proof (pathParts_slashFree u) as Hfree.
  exists u.
  destruct Hshape as [(o & r & Hp & Ha) | (o & r & t & rf & rest & Hp & Ht & Ho & Hr & Href & Hpath)].
  - exists r. subst a. unfold segmentsOf. cbn. repeat split; auto. discriminate.
  - exists r. split; [exact Hu|]. split; [exact Hr|].
    unfold segmentsOf. rewrite Ho, Href, Hpath.
    assert (Hm : markerOf (type a) = [t]) by (destruct Ht as [[-> ->] | [-> ->]]; reflexivity).
    rewrite Hm, Hp in *. cbn [app].
    rewrite !Forall_cons_iff in Hne, Hfree.
    destruct Hne as (_ & _ & _ & _ & Hne). destruct Hfree as (_ & _ & _ & _ & Hfree).
    destruct rest as [|x xs].
    + cbn. split; [reflexivity | discriminate].
    + apply Forall_cons_iff in Hne as [Hx _].
      rewrite (join_nonempty xs Hx). cbn [pathSegments].
      rewrite split_join; [|discriminate|exact Hfree].
      split; [reflexivity|].
      intros E. pose proof (join_nonempty xs Hx) as Hj.
      assert (E' : JS.join (x :: xs) = "") by congruence.
      rewrite E' in Hj. discriminate.
Qed.

End ResolverShape.

Lemma parseGitHubUrl_ignores_trailing_slash_witness :
  parseGitHubUrl URL_model ("https://github.com/o/r/tree/main/src" +++ "/")
  = parseGitHubUrl URL_model "https://github.com/o/r/tree/main/src".
Proof.
  apply (parseGitHubUrl_ignores_trailing_slash URL_model
           (url := "https://github.com/o/r/tree/main/src")).
  reflexivity.
Defined.

Lemma parsed_segments_round_trip_witness :
  exists u repoSegment,
    URL_model (cleanUrl "https://github.com/o/r.git/tree/main/src/lib") = Some u
    /\ pathPartsOf u
       = segmentsOf {| owner := "o"; repo := "r"; ref := Some "main"; path := Some "src/lib";
                       type := Tree |} repoSegment.
Proof.
  destruct (parsed_segments_round_trip URL_model "https://github.com/o/r.git/tree/main/src/lib"
              (a := {| owner := "o"; repo := "r"; ref := Some "main"; path := Some "src/lib";
                       type := Tree |}) eq_refl)
    as (u & seg & Hu & _ & Hseg & _).
  exists u, seg. auto.
Defined.

(* ================================================================== *)
(** * Further properties of discovery *)

Lemma progressEvents_discovery (onProgress : bool) (n : nat) :
  forall count, forallb isDiscoveryEvent (progressEvents onProgress count n) = true.
Proof.
  induction n as [|n IH]; intros count; [reflexivity|].
  rewrite progressEvents_snoc, forallb_app, IH. now destruct onProgress.
Qed.

Lemma progressCounts_app (a b : list Event) :
  progressCounts (a ++ b) = progressCounts a ++ progressCounts b.
Proof. induction a as [|e a IH]; [reflexivity|]. destruct e; simpl; now rewrite ?IH. Qed.

Lemma progressCounts_progressEvents (onProgress : bool) (n : nat) :
  forall count,
    progressCounts (progressEvents onProgress count n)
    = if onProgress then seq (S count) n else [].
Proof.
  induction n as [|n IH]; intros count.
  - now destruct onProgress.
  - rewrite progressEvents_snoc, progressCounts_app, IH. now destruct onProgress.
Qed.

(** Requests and callback calls are no file operations. *)
Lemma discovery_silent (l : list Event) :
  forallb isDiscoveryEvent l = true ->
  downloads l = [] /\ mkdirs l = [] /\ writes l = [] /\ appends l = []
  /\ finalizes l = 0 /\ attempts l = [] /\ archives l = [].
Proof.
  induction l as [|e l IH]; [simpl; auto 10|].
  cbn [forallb]. intros H. apply andb_true_iff in H as [He Hl].
  destruct (IH Hl) as (H1 & H2 & H3 & H4 & H5 & H6 & H7).
  destruct e; try discriminate; simpl; auto 10.
Qed.

Section DiscoveryMore.

Variable encodeURIComponent : string -> result string.
Variable env : Env.

(** [getContents] is the lookup followed by the rest. *)
Lemma getContents_afterLookup (parsed : ParsedGitHubUrl) (onProgress : bool) (w : World) :
  getContents encodeURIComponent env parsed onProgress w
  = match afterLookup env parsed w with
    | Throw m =>
        (Throw m, parsed,
         w ++ [EvFetch (defaultBranchUrl (owner parsed) (repo parsed)) (Throw m)])
    | Ok (p1, w1) =>
        (fst (getContentsWithRef encodeURIComponent env p1 onProgress w1), p1,
         snd (getContentsWithRef encodeURIComponent env p1 onProgress w1))
    end.
Proof.
  unfold getContents, afterLookup.
  destruct (JS.truthy (ref parsed)); cbn [negb].
  - unfold bind, ret. now destruct (getContentsWithRef _ _ _ _ _).
  - unfold bind at 1. unfold getDefaultBranch, bind, fetch, ret.
    destruct (fetchOutcome env w (defaultBranchUrl (owner parsed) (repo parsed))) as [d|m].
    + now destruct (getContentsWithRef _ _ _ _ _).
    + reflexivity.
Qed.

(** What the lookup adds to the history. *)
Lemma afterLookup_history (parsed p1 : ParsedGitHubUrl) (w w1 : World) :
  afterLookup env parsed w = Ok (p1, w1) ->
  exists d0, w1 = w ++ d0 /\ forallb isDiscoveryEvent d0 = true
             /\ length (fetchedUrls d0) <= 1 /\ progressCounts d0 = []
             /\ (JS.truthy (ref parsed) = true -> d0 = [] /\ p1 = parsed)
             /\ owner p1 = owner parsed /\ repo p1 = repo parsed
             /\ path p1 = path parsed /\ type p1 = type parsed.
Proof.
  unfold afterLookup. destruct (JS.truthy (ref parsed)).
  - intros H. injection H as <- <-. exists []. rewrite app_nil_r. simpl. auto 10.
  - destruct (fetchOutcome env w _) as [d|m]; [|discriminate].
    intros H. injection H as <- <-. eexists. split; [reflexivity|]. simpl.
    repeat split; auto; discriminate.
Qed.

(** The rest of discovery: what it adds to the history and what it returns. *)
Lemma getContentsWithRef_shape (parsed : ParsedGitHubUrl) (onProgress : bool) (w : World) :
  exists delta,
    snd (getContentsWithRef encodeURIComponent env parsed onProgress w) = w ++ delta
    /\ forallb isDiscoveryEvent delta = true
    /\ length (fetchedUrls delta) <= 1
    /\ match fst (getContentsWithRef encodeURIComponent env parsed onProgress w) with
       | Ok files =>
           progressCounts delta = (if onProgress then seq 1 (length files) else [])
           /\ Forall (fun f => downloadUrl f = getRawUrl parsed (f_path f)) files
       | Throw _ => progressCounts delta = []
       end.
Proof.
  unfold getContentsWithRef.
  destruct (PathType_eqb (type parsed) Blob && JS.truthy (path parsed)).
  - set (file := {| f_path := JS.or_else (path parsed) "";
                    downloadUrl := getRawUrl parsed (JS.or_else (path parsed) "");
                    size := 0; sha := Some "" |}).
    destruct (enrich_keeps encodeURIComponent env parsed file w) as (Hp & Hu & _).
    unfold enrich in *.
    destruct (buildContentsApiUrl encodeURIComponent parsed) as [url|m].
    + exists (EvFetch url (fetchOutcome env w url)
              :: (if onProgress then [EvOnProgress 1] else [])).
      destruct onProgress; run_io; rewrite <- ?app_assoc;
        (split; [reflexivity|]); repeat split; auto;
        constructor; auto; rewrite Hu, Hp; reflexivity.
    + exists (if onProgress then [EvOnProgress 1] else []).
      destruct onProgress; run_io; rewrite ?app_nil_r;
        (split; [reflexivity|]); repeat split; auto.
  - unfold getTreeContents, bind, fetch.
    destruct (fetchOutcome env w (buildTreeApiUrl parsed)) as [d|m].
    + destruct (tree d) as [items|].
      * rewrite treeLoop_run. unfold ret. cbn [fst snd]. rewrite <- app_assoc.
        eexists. split; [reflexivity|].
        cbn [app forallb isDiscoveryEvent fetchedUrls progressCounts andb length].
        rewrite progressEvents_discovery, fetchedUrls_progressEvents,
          progressCounts_progressEvents, length_map.
        repeat split; auto.
        apply Forall_forall. intros f Hf. apply in_map_iff in Hf as (it & <- & _). reflexivity.
      * unfold ret. cbn [fst snd]. eexists. split; [reflexivity|]. simpl. auto.
    + unfold ret. cbn [fst snd]. eexists. split; [reflexivity|]. simpl. auto.
Qed.

Lemma getContents_history (parsed : ParsedGitHubUrl) (onProgress : bool) (w : World) :
  exists delta,
    snd (getContents encodeURIComponent env parsed onProgress w) = w ++ delta
    /\ forallb isDiscoveryEvent delta = true
    /\ length (fetchedUrls delta) <= 2
    /\ (if JS.truthy (ref parsed) then length (fetchedUrls delta) <= 1 else True)
    /\ downloads delta = [] /\ mkdirs delta = [] /\ writes delta = []
    /\ appends delta = [] /\ archives delta = [].
Proof.
  rewrite getContents_afterLookup.
  destruct (afterLookup env parsed w) as [[p1 w1]|m] eqn:E.
  - destruct (afterLookup_history _ _ E) as (d0 & -> & Hd0 & Hn0 & _ & Href & _).
    destruct (getContentsWithRef_shape p1 onProgress (w ++ d0)) as (d & Hd & Hev & Hn & _).
    cbn [snd]. rewrite Hd, <- app_assoc. exists (d0 ++ d). split; [reflexivity|].
    assert (Hall : forallb isDiscoveryEvent (d0 ++ d) = true)
      by (rewrite forallb_app, Hd0, Hev; reflexivity).
    destruct (discovery_silent _ Hall) as (H1 & H2 & H3 & H4 & _ & _ & H7).
    rewrite fetchedUrls_app, length_app.
    repeat split; auto; try lia.
    destruct (JS.truthy (ref parsed)); [|exact I].
    destruct (Href eq_refl) as [-> _]. simpl. lia.
  - cbn [snd]. eexists. split; [reflexivity|].
    unfold afterLookup in E. destruct (JS.truthy (ref parsed)); [discriminate|].
    simpl. repeat split; auto.
Qed.

(** Discovery only asks and reports: at most two requests (one when the
    address has a reference), and never a download, a directory, a file or
    an archive. *)
Theorem discovery_only_requests (parsed : ParsedGitHubUrl) (onProgress : bool) (w : World) :
  exists delta,
    snd (getContents encodeURIComponent env parsed onProgress w) = w ++ delta
    /\ forallb isDiscoveryEvent delta = true
    /\ length (fetchedUrls delta) <= 2
    /\ (if JS.truthy (ref parsed) then length (fetchedUrls delta) <= 1 else True)
    /\ downloads delta = [] /\ mkdirs delta = [] /\ writes delta = []
    /\ appends delta = [] /\ archives delta = [].
Proof. exact (getContents_history parsed onProgress w). Qed.

(** The callback of a discovery that succeeds gets the counts 1, 2, ... up
    to the number of files returned, in order; a discovery that fails has
    not called it. *)
Theorem discovery_progress_counts (parsed : ParsedGitHubUrl) (onProgress : bool) (w : World) :
  exists delta,
    snd (getContents encodeURIComponent env parsed onProgress w) = w ++ delta
    /\ match fst (fst (getContents encodeURIComponent env parsed onProgress w)) with
       | Ok files => progressCounts delta = (if onProgress then seq 1 (length files) else [])
       | Throw _ => progressCounts delta = []
       end.
Proof.
  rewrite getContents_afterLookup.
  destruct (afterLookup env parsed w) as [[p1 w1]|m] eqn:E.
  - destruct (afterLookup_history _ _ E) as (d0 & -> & _ & _ & Hc0 & _).
    destruct (getContentsWithRef_shape p1 onProgress (w ++ d0)) as (d & Hd & _ & _ & Hres).
    cbn [fst snd]. rewrite Hd, <- app_assoc. exists (d0 ++ d). split; [reflexivity|].
    rewrite progressCounts_app, Hc0. cbn [app].
    destruct (fst (getContentsWithRef encodeURIComponent env p1 onProgress (w ++ d0)));
      tauto.
  - cbn [fst snd]. eexists. split; reflexivity.
Qed.

(** Every descriptor that discovery returns carries the raw URL of its own
    path under the address as discovery leaves it. *)
Theorem discovery_download_urls (parsed : ParsedGitHubUrl) (onProgress : bool) (w : World) :
  match fst (getContents encodeURIComponent env parsed onProgress w) with
  | (Ok files, parsed') =>
      Forall (fun f => downloadUrl f = getRawUrl parsed' (f_path f)) files
  | (Throw _, _) => True
  end.
Proof.
  rewrite getContents_afterLookup.
  destruct (afterLookup env parsed w) as [[p1 w1]|m]; [|exact I].
  destruct (getContentsWithRef_shape p1 onProgress w1) as (d & _ & _ & _ & Hres).
  cbn [fst]. destruct (fst (getContentsWithRef encodeURIComponent env p1 onProgress w1));
    tauto.
Qed.

End DiscoveryMore.

Section DiscoveryOutcomes.

Variable encodeURIComponent : string -> result string.
Variable env : Env.

(** Discovery fails in three ways and no other: the lookup of the default
    branch fails; or, for an address that is not a single file, the request
    for the tree fails, or its answer holds no tree.  The message is that
    of the failed request, or the fixed one of the client. *)
Theorem discovery_fails_iff (parsed : ParsedGitHubUrl) (onProgress : bool) (w : World)
    (m : string) :
  fst (fst (getContents encodeURIComponent env parsed onProgress w)) = Throw m
  <-> afterLookup env parsed w = Throw m
      \/ exists p1 w1,
           afterLookup env parsed w = Ok (p1, w1)
           /\ isSingleFile p1 = false
           /\ (fetchOutcome env w1 (buildTreeApiUrl p1) = Throw m
               \/ exists data, fetchOutcome env w1 (buildTreeApiUrl p1) = Ok data
                               /\ tree data = None
                               /\ m = "Invalid response from GitHub API").
Proof.
  rewrite getContents_afterLookup.
  destruct (afterLookup env parsed w) as [[p1 w1]|m0] eqn:E; cbn [fst].
  - unfold getContentsWithRef. fold (isSingleFile p1).
    destruct (isSingleFile p1) eqn:Es.
    + split.
      * unfold bind, ret.
        destruct (enrich _ _ _ _ _) as [f w2]. destruct (callOnProgress _ _ _). discriminate.
      * intros [H | (p & w' & H & Hs & _)]; [discriminate|].
        injection H as <- <-. congruence.
    + unfold getTreeContents, bind, fetch.
      destruct (fetchOutcome env w1 (buildTreeApiUrl p1)) as [d|m1] eqn:Ef.
      * destruct (tree d) as [items|] eqn:Et.
        -- rewrite treeLoop_run. unfold ret. cbn [fst]. split; [discriminate|].
           intros [H | (p & w' & H & _ & [H1 | (data & H1 & H2 & _)])]; try discriminate.
           ++ injection H as <- <-. congruence.
           ++ injection H as <- <-. congruence.
        -- unfold ret. cbn [fst]. split.
           ++ intros H. injection H as <-. right. exists p1, w1. eauto 10.
           ++ intros [H | (p & w' & H & _ & [H1 | (data & H1 & H2 & ->)])]; try discriminate.
              ** injection H as <- <-. congruence.
              ** reflexivity.
      * unfold ret. cbn [fst]. split.
        -- intros H. injection H as <-. right. exists p1, w1. auto.
        -- intros [H | (p & w' & H & _ & [H1 | (data & H1 & _)])]; try discriminate.
           ++ injection H as <- <-. congruence.
           ++ injection H as <- <-. congruence.
  - split.
    + intros H. injection H as <-. now left.
    + intros [H | (p & w' & H & _)]; [|discriminate]. congruence.
Qed.

(** The default branch is looked up once: discovery leaves an address with
    the branch as its reference and the other fields untouched, and leaves
    an address that had a reference as it was; a later discovery with the
    address it left asks for no default branch. *)
Theorem discovery_settles_reference (parsed p1 : ParsedGitHubUrl) (onProgress : bool)
    (w w1 : World) :
  afterLookup env parsed w = Ok (p1, w1) ->
  snd (fst (getContents encodeURIComponent env parsed onProgress w)) = p1
  /\ owner p1 = owner parsed /\ repo p1 = repo parsed
  /\ path p1 = path parsed /\ type p1 = type parsed
  /\ (JS.truthy (ref parsed) = true -> p1 = parsed)
  /\ (JS.truthy (ref p1) = true ->
      forall enc' env' onProgress' w',
      exists delta,
        snd (getContents enc' env' p1 onProgress' w') = w' ++ delta
        /\ ~ In (defaultBranchUrl (owner parsed) (repo parsed)) (fetchedUrls delta)).
Proof.
  intros E. rewrite getContents_afterLookup, E. cbn [fst snd].
  destruct (afterLookup_history _ _ _ E) as (d0 & _ & _ & _ & _ & Href & Ho & Hr & Hp & Ht).
  repeat split; auto.
  - intros H. now destruct (Href H).
  - intros Htr enc' env' onProgress' w'.
    destruct (getContents_no_lookup enc' env' p1 onProgress' w' Htr) as (delta & Hd & Hn).
    exists delta. split; [exact Hd|]. now rewrite <- Ho, <- Hr.
Qed.

(** Without a path nothing is filtered: discovery returns every file entry
    of the listing, in order, whatever the kind of the address. *)
Theorem discovery_without_path_lists_all (parsed p1 : ParsedGitHubUrl) (onProgress : bool)
    (w w1 : World) (data : ApiData) (items : list TreeItem) :
  JS.truthy (path parsed) = false ->
  afterLookup env parsed w = Ok (p1, w1) ->
  fetchOutcome env w1 (buildTreeApiUrl p1) = Ok data ->
  tree data = Some items ->
  fst (getContents encodeURIComponent env parsed onProgress w)
  = (Ok (map (fileOfItem p1) (filter isBlobItem items)), p1).
Proof.
  intros Hpath E Hf Ht. rewrite getContents_afterLookup, E. cbn [fst].
  destruct (afterLookup_history _ _ _ E) as (d0 & _ & _ & _ & _ & _ & _ & _ & Hp & _).
  unfold getContentsWithRef. rewrite Hp, Hpath, andb_false_r.
  rewrite (getTreeContents_listing _ _ _ _ Hf Ht). cbn [fst].
  rewrite kept_all; [reflexivity | now rewrite Hp].
Qed.

(** Whatever the listing, the loop keeps only file entries of the listing,
    and, when the address has a path, only entries at that path or under
    it. *)
Lemma kept_sound (parsed : ParsedGitHubUrl) (items : list TreeItem) :
  Forall (fun it =>
            In it items /\ isBlobItem it = true
            /\ forall p, path parsed = Some p -> p <> "" ->
                 item_path it = p \/ JS.startsWith (item_path it) (p +++ "/") = true)
         (kept parsed (pathPrefixOf parsed) items).
Proof.
  induction items as [|item rest IH]; [constructor|].
  assert (IH' : Forall (fun it =>
            In it (item :: rest) /\ isBlobItem it = true
            /\ forall p, path parsed = Some p -> p <> "" ->
                 item_path it = p \/ JS.startsWith (item_path it) (p +++ "/") = true)
         (kept parsed (pathPrefixOf parsed) rest)).
  { eapply Forall_impl; [|exact IH]. cbn beta. intros it (H1 & H2 & H3). simpl. auto. }
  cbn [kept]. destruct (isBlobItem item) eqn:Eb; cbn [negb]; [|exact IH'].
  destruct (JS.truthy (path parsed)) eqn:Et.
  - destruct (pathIs (item_path item) (path parsed)) eqn:Ep.
    + constructor; [|constructor]. split; [now left|]. split; [exact Eb|].
      intros p Hp _. rewrite Hp in Ep. cbn [pathIs] in Ep. apply String.eqb_eq in Ep. now left.
    + destruct (JS.startsWith (item_path item) (pathPrefixOf parsed)) eqn:Es; cbn [negb];
        [|exact IH'].
      constructor; [|exact IH']. split; [now left|]. split; [exact Eb|].
      intros p Hp Hne. right. now rewrite <- (pathPrefixOf_path _ Hp Hne).
  - constructor; [|exact IH']. split; [now left|]. split; [exact Eb|].
    intros p Hp Hne. rewrite Hp in Et. cbn [JS.truthy] in Et.
    apply nonempty_true in Hne. congruence.
Qed.

(** Every descriptor of a listing is that of a file entry of the listing
    and, when the address has a path, of an entry at that path or under it:
    discovery invents nothing and returns no directory. *)
Theorem listing_returns_only_listed_files (parsed : ParsedGitHubUrl) (onProgress : bool)
    (w : World) (data : ApiData) (items : list TreeItem) :
  fetchOutcome env w (buildTreeApiUrl parsed) = Ok data ->
  tree data = Some items ->
  exists selected,
    fst (getTreeContents env parsed onProgress w) = Ok (map (fileOfItem parsed) selected)
    /\ Forall (fun it =>
                 In it items /\ item_type it = "blob"
                 /\ forall p, path parsed = Some p -> p <> "" ->
                      item_path it = p \/ JS.startsWith (item_path it) (p +++ "/") = true)
              selected.
Proof.
  intros Hf Ht. exists (kept parsed (pathPrefixOf parsed) items).
  rewrite (getTreeContents_listing _ _ _ _ Hf Ht). split; [reflexivity|].
  eapply Forall_impl; [|apply kept_sound]. cbn beta.
  intros it (H1 & H2 & H3). split; [exact H1|]. split; [|exact H3].
  now apply String.eqb_eq.
Qed.

End DiscoveryOutcomes.

(* ================================================================== *)
(** * Further properties of the materializer *)

(** ** Relative paths *)

Lemma startsWith_longer (p : string) : JS.startsWith p (p +++ "/") = false.
Proof.
  induction p as [|c p IH]; [reflexivity|].
  change (String c p +++ "/") with (String c (p +++ "/")). cbn [JS.startsWith].
  now rewrite IH, andb_false_r.
Qed.

(** A folder address may name a file: the file found at the very path of
    the address keeps its whole repository path as relative path, where a
    file address would keep the base name only. *)
Theorem file_at_folder_address_keeps_full_path (parsed : ParsedGitHubUrl) (p : string)
    (it : TreeItem) :
  type parsed <> Blob -> path parsed = Some p -> p <> "" ->
  exactlyAt p it = true ->
  getRelativePath (f_path (fileOfItem parsed it)) parsed = p.
Proof.
  intros Ht Hpath Hp Hit. unfold exactlyAt in Hit.
  apply andb_true_iff in Hit as [_ He]. apply String.eqb_eq in He.
  cbn [fileOfItem f_path]. rewrite He. unfold getRelativePath.
  rewrite Hpath, (or_else_some _ Hp), startsWith_longer, andb_false_r.
  destruct (type parsed); try reflexivity. congruence.
Qed.

Lemma NoDup_map_on {A B C} (f : A -> B) (g : A -> C) (l : list A) :
  (forall x y, In x l -> In y l -> f x = f y -> g x = g y) ->
  NoDup (map g l) -> NoDup (map f l).
Proof.
  induction l as [|a l IH]; intros Hinj Hnd; [constructor|].
  cbn [map] in *. inversion Hnd as [|? ? Hnotin Hnd']; subst. constructor.
  - intros Hin. apply in_map_iff in Hin as (y & Hy & Hyl).
    apply Hnotin. apply in_map_iff. exists y. split; [|exact Hyl].
    symmetry. apply Hinj; simpl; auto.
  - apply IH; [|exact Hnd']. intros x y Hx Hy. apply Hinj; simpl; auto.
Qed.

Lemma NoDup_map_filter {A B} (g : A -> B) (f : A -> bool) (l : list A) :
  NoDup (map g l) -> NoDup (map g (filter f l)).
Proof.
  induction l as [|a l IH]; intros Hnd; [constructor|].
  cbn [map filter] in *. inversion Hnd as [|? ? Hnotin Hnd']; subst.
  destruct (f a); [|auto]. cbn [map]. constructor; [|auto].
  intros Hin. apply Hnotin. apply in_map_iff in Hin as (y & Hy & Hyl).
  apply in_map_iff. exists y. apply filter_In in Hyl as [Hyl _]. auto.
Qed.

(** Under a folder address, listed files with different repository paths
    get different relative paths. *)
Theorem relative_paths_do_not_collide (parsed : ParsedGitHubUrl) (p : string)
    (items : list TreeItem) :
  type parsed = Tree -> path parsed = Some p -> p <> "" ->
  NoDup (map item_path items) ->
  NoDup (relativePaths parsed (map (fileOfItem parsed) (filter (underPath p) items))).
Proof.
  intros Ht Hpath Hp Hnd. unfold relativePaths. rewrite map_map. cbn [fileOfItem f_path].
  apply NoDup_map_on with (g := item_path); [|now apply NoDup_map_filter].
  intros x y Hx Hy E.
  apply filter_In in Hx as [_ Hx]. apply filter_In in Hy as [_ Hy].
  unfold underPath in Hx, Hy.
  apply andb_true_iff in Hx as [_ Hx]. apply andb_true_iff in Hy as [_ Hy].
  rewrite (getRelativePath_under _ _ Ht Hpath Hp Hx).
  rewrite (getRelativePath_under _ _ Ht Hpath Hp Hy). now rewrite E.
Qed.

(** ** [truncatePath] *)

Lemma length_slice (n : nat) (s : string) : String.length (JS.slice n s) = String.length s - n.
Proof.
  revert s. induction n as [|n IH]; intros s; simpl; [lia|].
  destruct s; simpl; auto.
Qed.

Lemma length_substring_0 (n : nat) (s : string) :
  n <= String.length s -> String.length (String.substring 0 n s) = n.
Proof.
  revert s. induction n as [|n IH]; intros s H.
  - destruct s; reflexivity.
  - destruct s as [|c s]; simpl in *; [lia|]. rewrite IH; lia.
Qed.

(** With a bound above 18, as in the progress lines (50), a truncated path
    is never longer than the bound: a short path is kept, a long one is cut
    to exactly the bound, keeping its first 15 characters. *)
Theorem truncatePath_length (path : string) (maxLength : nat) :
  18 < maxLength ->
  String.length (truncatePath path maxLength) = Nat.min (String.length path) maxLength
  /\ (String.length path <= maxLength -> truncatePath path maxLength = path)
  /\ JS.startsWith (truncatePath path maxLength) (String.substring 0 15 path) = true.
Proof.
  intros Hmax. unfold truncatePath, sliceTail, JS.len.
  destruct (String.length path <=? maxLength) eqn:E.
  - apply Nat.leb_le in E. split; [lia|]. split; [reflexivity|].
    clear. generalize 15. induction path as [|c s IH]; intros n; destruct n; simpl; auto.
    now rewrite Ascii.eqb_refl, IH.
  - apply Nat.leb_gt in E. apply Nat.ltb_lt in Hmax. rewrite Hmax. apply Nat.ltb_lt in Hmax.
    split; [|split; [lia|apply startsWith_append]].
    rewrite !length_append, length_slice, length_substring_0 by lia. simpl. lia.
Qed.

Lemma truncatePath_length_witness :
  String.length (truncatePath "src/components/forms/inputs/very/deep/nested/TextField.tsx" 50)
  = 50.
Proof.
  apply (proj1 (truncatePath_length
                  "src/components/forms/inputs/very/deep/nested/TextField.tsx"
                  (maxLength := 50) ltac:(lia))).
Defined.

(** ** The report of the failures *)

Lemma failedLines_app (a b : list Event) : failedLines (a ++ b) = failedLines a ++ failedLines b.
Proof.
  induction a as [|e a IH]; [reflexivity|].
  destruct e as [| | | | | | | |o| |]; simpl; auto. destruct o; simpl; now rewrite ?IH.
Qed.

Lemma moreLines_app (a b : list Event) : moreLines (a ++ b) = moreLines a ++ moreLines b.
Proof.
  induction a as [|e a IH]; [reflexivity|].
  destruct e as [| | | | | | | |o| |]; simpl; auto. destruct o; simpl; now rewrite ?IH.
Qed.

Lemma printErrors_lines (errs : list DownloadError) :
  forall w, exists delta,
    printErrors errs w = (tt, w ++ delta)
    /\ failedLines delta = map (fun e => (err_file e, err_error e)) errs
    /\ moreLines delta = [].
Proof.
  induction errs as [|e errs IH]; intros w.
  - exists []. unfold printErrors, ret. now rewrite app_nil_r.
  - cbn [printErrors]. run_io.
    destruct (IH (w ++ [EvOut (OutFailedFile (err_file e) (err_error e))])) as (d & Hd & Hf & Hm).
    rewrite Hd. eexists. rewrite <- app_assoc. split; [reflexivity|].
    cbn [app failedLines moreLines map]. now rewrite Hf, Hm.
Qed.

(** The report names the first five failures, one line each and in order,
    and counts the others in one more line; without a failure nothing is
    printed. *)
Theorem reportErrors_lists_first_five (errs : list DownloadError) (w : World) :
  exists delta,
    reportErrors errs w = (tt, w ++ delta)
    /\ failedLines delta = map (fun e => (err_file e, err_error e)) (firstn 5 errs)
    /\ length (failedLines delta) = Nat.min 5 (length errs)
    /\ moreLines delta = (if 5 <? length errs then [length errs - 5] else [])
    /\ (errs = [] -> delta = []).
Proof.
  unfold reportErrors.
  destruct (0 <? length errs) eqn:E.
  - unfold bind, emit, ret.
    destruct (printErrors_lines (JS.takeArr 5 errs) (w ++ [EvOut (OutFailedCount (length errs))]))
      as (d & Hd & Hf & Hm).
    rewrite Hd. unfold JS.takeArr in Hf.
    assert (Hlen : length (map (fun e => (err_file e, err_error e)) (firstn 5 errs))
                   = Nat.min 5 (length errs)) by (rewrite length_map; apply length_firstn).
    assert (Hne : errs = [] -> False).
    { intros ->. simpl in E. discriminate. }
    destruct (5 <? length errs).
    + exists (EvOut (OutFailedCount (length errs)) :: d ++ [EvOut (OutMore (length errs - 5))]).
      rewrite <- !app_assoc. split; [reflexivity|].
      cbn [failedLines moreLines]. rewrite failedLines_app, moreLines_app, Hf, Hm.
      cbn [failedLines moreLines app]. rewrite app_nil_r.
      repeat split; auto. intros H. destruct (Hne H).
    + exists (EvOut (OutFailedCount (length errs)) :: d).
      rewrite <- !app_assoc. split; [reflexivity|].
      cbn [failedLines moreLines]. rewrite Hf, Hm.
      repeat split; auto. intros H. destruct (Hne H).
  - exists []. unfold ret. rewrite app_nil_r. split; [reflexivity|].
    apply Nat.ltb_ge in E. destruct errs; [|simpl in E; lia]. simpl. auto.
Qed.

Lemma last_cons_default {A} (l : list A) :
  forall x d, last (x :: l) d = last l x.
Proof.
  induction l as [|y l IH]; intros x d; [reflexivity|].
  change (last (x :: y :: l) d) with (last (y :: l) d). rewrite IH. symmetry. apply IH.
Qed.

(** ** One file of the directory mode *)

Section DirectoryMode.

Variable join : string -> string -> string.
Variable dirname : string -> string.
Variable env : Env.

(** The four ways in which one file can go. *)
Lemma fetchAndWrite_cases (file : GitHubFile) (outputPath : string) (w : World) :
  let d := dirname outputPath in
  let u := downloadUrl file in
  (exists m, fetchAndWrite dirname env file outputPath w
             = (Throw m, w ++ [EvMkdir d (Throw m)]))
  \/ (exists m, fetchAndWrite dirname env file outputPath w
                = (Throw m, w ++ [EvMkdir d (Ok tt); EvDownload u (Throw m)]))
  \/ (exists c m, fetchAndWrite dirname env file outputPath w
                  = (Throw m, w ++ [EvMkdir d (Ok tt); EvDownload u (Ok c);
                                    EvWriteFile outputPath c (Throw m)]))
  \/ (exists c, fetchAndWrite dirname env file outputPath w
                = (Ok c, w ++ [EvMkdir d (Ok tt); EvDownload u (Ok c);
                               EvWriteFile outputPath c (Ok tt)])).
Proof.
  intros d u. subst d u.
  unfold fetchAndWrite, bind, mkdir, downloadFile, writeFile, ret.
  destruct (fs_mkdir env w (dirname outputPath)) as [[]|m1].
  2: { left. eauto. }
  match goal with |- context [downloadOutcome env ?w1 ?u] =>
    destruct (downloadOutcome env w1 u) as [content|m2] end.
  2: { right. left. exists m2. now rewrite <- app_assoc. }
  match goal with |- context [fs_writeFile env ?w2 ?o ?c] =>
    destruct (fs_writeFile env w2 o c) as [[]|m3] end.
  - right. right. right. exists content. now rewrite <- !app_assoc.
  - right. right. left. exists content, m3. now rewrite <- !app_assoc.
Qed.

(** The loop of the directory mode, operation by operation. *)
Lemma filesLoop_operations (parsed : ParsedGitHubUrl) (outputDir : string) (single : bool)
    (total : nat) (files : list GitHubFile) :
  forall (st : Progress) (errs : list DownloadError) (w : World),
  exists delta st' errs',
    filesLoop join dirname env parsed outputDir single total files st errs w
    = ((st', errs'), w ++ delta)
    /\ forallb isDirectoryEvent delta = true
    /\ length (downloads delta) = length (createdDirs delta)
    /\ map (fun x => snd (fst x)) (writes delta) = downloaded delta
    /\ Forall (fun x => In (fst (fst x))
                          (map (outputPathOf join parsed outputDir single) files))
              (writes delta)
    /\ length errs' + length (written delta) = length errs + length files
    /\ downloadedBytes st' = downloadedBytes st + totalBytes (written delta)
    /\ current st' = current st + length files
    /\ map (fun x => (fst (fst x), snd (fst x))) (progressLines delta)
       = map (fun i => (i, total)) (seq (S (current st)) (length files))
    /\ last (progressLines delta) (current st, total, downloadedBytes st)
       = (current st', total, downloadedBytes st').
Proof.
  induction files as [|file rest IH]; intros st errs w.
  - exists [], st, errs. unfold filesLoop, ret. rewrite app_nil_r. simpl.
    repeat split; auto; lia.
  - cbn [filesLoop]. unfold bind at 1.
    fold (outputPathOf join parsed outputDir single file).
    set (out := outputPathOf join parsed outputDir single file).
    assert (Hmono : forall l : list (string * Buffer * result unit),
              Forall (fun x => In (fst (fst x))
                                 (map (outputPathOf join parsed outputDir single) rest)) l ->
              Forall (fun x => In (fst (fst x))
                                 (map (outputPathOf join parsed outputDir single) (file :: rest)))
                     l).
    { intros l H. eapply Forall_impl; [|exact H]. cbn beta. intros x Hx. now right. }
    destruct (fetchAndWrite_cases file out w)
      as [(m & Hrun1) | [(m & Hrun1) | [(c & m & Hrun1) | (c & Hrun1)]]];
      rewrite Hrun1; cbv beta iota zeta delta [bind updateProgress emit ret];
      match goal with |- context [filesLoop _ _ _ _ _ _ _ rest ?st1 ?errs1 ?w1] =>
        destruct (IH st1 errs1 w1)
          as (d & st' & errs' & Hrun & Hev & Hdl & Hwc & Hwp & Hcount & Hbytes & Hcur & Hpl & Hl)
      end;
      rewrite Hrun; rewrite <- !app_assoc; cbn [app];
      eexists _, st', errs'; (split; [reflexivity|]);
      clear IH Hrun Hrun1;
      rewrite ?length_app in Hcount;
      cbn [forallb isDirectoryEvent andb downloads createdDirs writes downloaded written
           progressLines map length fst snd current downloadedBytes seq] in *;
      unfold totalBytes, list_sum in *; cbn [map fold_right] in *;
      (split; [exact Hev|]); (split; [lia|]); (split; [now rewrite ?Hwc|]);
      (split; [first [ apply Hmono; exact Hwp
                     | constructor; [left; reflexivity | apply Hmono; exact Hwp] ]|]);
      (split; [lia|]); (split; [lia|]); (split; [lia|]);
      (split; [now rewrite Hpl|]);
      rewrite last_cons_default; exact Hl.
Qed.

End DirectoryMode.

(** ** Whole runs, operation by operation *)

Lemma report_silent_more (l : list Event) :
  forallb isReportLine l = true ->
  forallb isDirectoryEvent l = true /\ forallb isArchiveLoopEvent l = true
  /\ writes l = [] /\ createdDirs l = [] /\ downloaded l = [] /\ written l = []
  /\ progressLines l = [] /\ archives l = [].
Proof.
  induction l as [|e l IH]; [simpl; auto 10|].
  cbn [forallb]. intros H. apply andb_true_iff in H as [He Hl].
  destruct (IH Hl) as (H1 & H2 & H3 & H4 & H5 & H6 & H7 & H8).
  destruct e as [| | | | | | | |o| |]; try discriminate.
  destruct o; try discriminate; simpl; auto 10.
Qed.

Lemma directory_silent (l : list Event) :
  forallb isDirectoryEvent l = true ->
  appends l = [] /\ finalizes l = 0 /\ archives l = [] /\ fetchedUrls l = [].
Proof.
  induction l as [|e l IH]; [simpl; auto|].
  cbn [forallb]. intros H. apply andb_true_iff in H as [He Hl].
  destruct (IH Hl) as (H1 & H2 & H3 & H4).
  destruct e; try discriminate; simpl; auto.
Qed.


Lemma writes_app (a b : list Event) : writes (a ++ b) = writes a ++ writes b.
Proof. induction a as [|e a IH]; [reflexivity|]. destruct e; simpl; now rewrite ?IH. Qed.

Lemma createdDirs_app (a b : list Event) : createdDirs (a ++ b) = createdDirs a ++ createdDirs b.
Proof.
  induction a as [|e a IH]; [reflexivity|].
  destruct e as [| |? r| | | | | | | |]; simpl; auto. destruct r; simpl; now rewrite ?IH.
Qed.

Lemma downloaded_app (a b : list Event) : downloaded (a ++ b) = downloaded a ++ downloaded b.
Proof.
  induction a as [|e a IH]; [reflexivity|].
  destruct e as [|? r| | | | | | | | |]; simpl; auto. destruct r; simpl; now rewrite ?IH.
Qed.

Lemma written_app (a b : list Event) : written (a ++ b) = written a ++ written b.
Proof.
  induction a as [|e a IH]; [reflexivity|].
  destruct e as [| | |? ? r| | | | | | |]; simpl; auto. destruct r; simpl; now rewrite ?IH.
Qed.

Lemma progressLines_app (a b : list Event) :
  progressLines (a ++ b) = progressLines a ++ progressLines b.
Proof.
  induction a as [|e a IH]; [reflexivity|].
  destruct e as [| | | | | | | |o| |]; simpl; auto. destruct o; simpl; now rewrite ?IH.
Qed.


Section WholeRuns.

Variable join : string -> string -> string.
Variable dirname : string -> string.
Variable env : Env.

(** The whole of [downloadFiles], operation by operation. *)
Lemma downloadFiles_operations (files : list GitHubFile) (outputDir : string)
    (parsed : ParsedGitHubUrl) (outputIsFilePath : bool) (w : World) :
  let single := PathType_eqb (type parsed) Blob && (length files =? 1) && outputIsFilePath in
  exists delta s,
    downloadFiles join dirname env files outputDir parsed outputIsFilePath w = (s, w ++ delta)
    /\ forallb isDirectoryEvent delta = true
    /\ length (downloads delta) = length (createdDirs delta)
    /\ map (fun x => snd (fst x)) (writes delta) = downloaded delta
    /\ Forall (fun x => In (fst (fst x))
                          (map (outputPathOf join parsed outputDir single) files))
              (writes delta)
    /\ successCount s = Z.of_nat (length (written delta))
    /\ map (fun x => (fst (fst x), snd (fst x))) (progressLines delta)
       = map (fun i => (i, length files)) (seq 1 (length files))
    /\ last (progressLines delta) (0, length files, 0)
       = (length files, length files, totalBytes (written delta)).
Proof.
  intros single. unfold downloadFiles. fold single.
  unfold bind at 1. unfold emit at 1. unfold bind at 1.
  destruct (filesLoop_operations join dirname env parsed outputDir single (length files) files
              initialProgress [] (w ++ [EvOut OutDownloading]))
    as (d & st' & errs' & Hrun & Hev & Hdl & Hwc & Hwp & Hcount & Hbytes & Hcur & Hpl & Hl).
  rewrite Hrun. unfold bind at 1.
  destruct (reportErrors_run errs' ((w ++ [EvOut OutDownloading]) ++ d))
    as (dr & Hrep & Hlines & _).
  rewrite Hrep. unfold bind, emit, ret.
  destruct (report_silent _ Hlines) as (_ & R2 & _).
  destruct (report_silent_more _ Hlines) as (Q1 & _ & Q3 & Q4 & Q5 & Q6 & Q7 & _).
  cbn [length initialProgress current downloadedBytes Nat.add] in *.
  eexists (EvOut OutDownloading :: d ++ dr ++ [_]), _.
  rewrite <- !app_assoc. split; [reflexivity|].
  cbn [successCount forallb isDirectoryEvent andb downloads createdDirs writes downloaded
       written progressLines].
  rewrite !forallb_app, !downloads_app, !createdDirs_app, !writes_app, !downloaded_app,
    !written_app, !progressLines_app, Hev, Q1, R2, Q3, Q4, Q5, Q6, Q7.
  cbn [forallb isDirectoryEvent andb downloads createdDirs writes downloaded written
       progressLines app].
  rewrite !app_nil_r.
  repeat split; auto.
  - lia.
  - rewrite Hl. congruence.
Qed.

End WholeRuns.

(* ------------------------------------------------------------------ *)
(** ** The batch, file by file *)

Lemma operations_app (a b : list Event) : operations (a ++ b) = operations a ++ operations b.
Proof. apply filter_app. Qed.





Section BatchOutcomes.

Variable join : string -> string -> string.
Variable dirname : string -> string.
Variable env : Env.


End BatchOutcomes.

Section ArchiveOutcomes.

Variable dirname : string -> string.
Variable env : Env.


End ArchiveOutcomes.

Section ArchiveRuns.

Variable dirname : string -> string.
Variable env : Env.





End ArchiveRuns.


Section DirectoryRuns.

Variable join : string -> string -> string.
Variable dirname : string -> string.
Variable env : Env.


End DirectoryRuns.

(* ------------------------------------------------------------------ *)
(** ** The batch *)

Example second_of_three_fails_zip :
  let '(r, tr) := downloadToZip Scenario.dirnamePlain secondFails threeFiles "out.zip"
                    address_o_r_main_src [] in
  option_map (fun s => (total s, attempted s, successCount s, map err_file (errors s)))
    (match r with Fulfilled s => Some s | _ => None end)
  = Some (3, 3, 2%Z, ["lib/b.ts"])
  /\ attempts tr = ["a.ts"; "lib/b.ts"; "c.ts"]
  /\ map fst (appends tr) = ["a.ts"; "c.ts"]
  /\ finalizes tr = 1
  /\ last tr EvFinalize = EvOut (OutCreatedZip 2 "out.zip").
Proof. vm_compute. repeat split; reflexivity. Qed.

Example second_of_three_fails_dir :
  let '(s, tr) := downloadFiles Scenario.joinPlain Scenario.dirnamePlain secondFails threeFiles
                    "out" address_o_r_main_src false [] in
  (total s, attempted s, successCount s, map err_file (errors s)) = (3, 3, 2%Z, ["lib/b.ts"])
  /\ attempts tr = ["a.ts"; "lib/b.ts"; "c.ts"]
  /\ map (fun x => fst (fst x)) (writes tr) = ["out/a.ts"; "out/c.ts"]
  /\ last tr EvFinalize = EvOut (OutDownloaded 2 "out").
Proof. vm_compute. repeat split; reflexivity. Qed.

Example refused_entry_is_a_failure :
  let '(r, tr) := downloadToZip Scenario.dirnamePlain (refusingArchiveEnv "lib/b.ts") threeFiles
                    "out.zip" address_o_r_main_src [] in
  attempts tr = ["a.ts"; "lib/b.ts"; "c.ts"]
  /\ map fst (appends tr) = ["a.ts"; "c.ts"]
  /\ failures tr = 1
  /\ last tr EvFinalize = EvOut (OutCreatedZip 2 "out.zip").
Proof. vm_compute. repeat split; reflexivity. Qed.

Example archive_path_is_a_directory :
  downloadToZip Scenario.dirnamePlain directoryAtZipPathEnv threeFiles "out.zip"
    address_o_r_main_src []
  = (Died "EISDIR: illegal operation on a directory, open 'out.zip'",
     [EvMkdir "." (Ok tt); EvOut OutCreatingZip; EvCreateArchive "out.zip";
      EvUncaught "EISDIR: illegal operation on a directory, open 'out.zip'"]).
Proof. reflexivity. Qed.







(** ** What the two modes do, read off their histories *)

Section Modes.

Variable join : string -> string -> string.
Variable dirname : string -> string.
Variable env : Env.

(** In the directory mode a file is downloaded exactly when its directory
    could be created, and what is handed to [writeFile] is, in order, what
    was downloaded; the success count is the number of files written; no
    archive is touched and no API request is made. *)
Theorem directory_mode_chain (files : list GitHubFile) (outputDir : string)
    (parsed : ParsedGitHubUrl) (outputIsFilePath : bool) (w : World) :
  exists delta s,
    downloadFiles join dirname env files outputDir parsed outputIsFilePath w = (s, w ++ delta)
    /\ length (downloads delta) = length (createdDirs delta)
    /\ map (fun x => snd (fst x)) (writes delta) = downloaded delta
    /\ successCount s = Z.of_nat (length (written delta))
    /\ appends delta = [] /\ finalizes delta = 0 /\ archives delta = []
    /\ fetchedUrls delta = [].
Proof.
  destruct (downloadFiles_operations join dirname env files outputDir parsed outputIsFilePath w)
    as (delta & s & Hrun & Hev & Hdl & Hwc & _ & Hsucc & _).
  destruct (directory_silent _ Hev) as (H1 & H2 & H3 & H4).
  exists delta, s. auto 10.
Qed.



Lemma downloadFiles_destinations (files : list GitHubFile) (outputDir : string)
    (parsed : ParsedGitHubUrl) (outputIsFilePath : bool) (w : World) :
  exists delta s,
    downloadFiles join dirname env files outputDir parsed outputIsFilePath w = (s, w ++ delta)
    /\ (type parsed = Blob -> length files = 1 -> outputIsFilePath = true ->
        mkdirs delta = [dirname outputDir]
        /\ Forall (fun x => fst (fst x) = outputDir) (writes delta))
    /\ (type parsed <> Blob \/ length files <> 1 \/ outputIsFilePath = false ->
        mkdirs delta
        = map (fun f => dirname (join outputDir (getRelativePath (f_path f) parsed))) files
        /\ Forall (fun x => exists f, In f files
                     /\ fst (fst x) = join outputDir (getRelativePath (f_path f) parsed))
                  (writes delta)).
Proof.
  destruct (downloadFiles_operations join dirname env files outputDir parsed outputIsFilePath w)
    as (delta & s & Hrun & _ & _ & _ & Hwp & _).
  destruct (downloadFiles_run join dirname env files outputDir parsed outputIsFilePath w)
    as (delta' & s' & Hrun' & _ & Hmk & _).
  assert (E : delta' = delta).
  { rewrite Hrun in Hrun'. injection Hrun' as _ Hd. now apply app_inv_head in Hd. }
  subst delta'. exists delta, s. split; [exact Hrun|]. cbv zeta in Hwp, Hmk.
  split.
  - intros Ht Hlen ->. rewrite Ht, Hlen in Hwp, Hmk. cbn [PathType_eqb Nat.eqb andb] in Hwp, Hmk.
    destruct files as [|f [|g rest]]; try discriminate.
    cbn [map outputPathOf] in Hwp, Hmk. split; [exact Hmk|].
    eapply Forall_impl; [|exact Hwp]. cbn beta. intros x [Hx | []]. now symmetry.
  - intros Hcase.
    assert (Hs : PathType_eqb (type parsed) Blob && (length files =? 1) && outputIsFilePath
                 = false).
    { destruct Hcase as [Ht | [Hl | ->]].
      - destruct (type parsed); try reflexivity. congruence.
      - apply Nat.eqb_neq in Hl. rewrite Hl. now rewrite andb_false_r.
      - now rewrite andb_false_r. }
    rewrite Hs in Hwp, Hmk. unfold outputPathOf in Hwp, Hmk. split; [exact Hmk|].
    eapply Forall_impl; [|exact Hwp]. cbn beta. intros x Hx.
    apply in_map_iff in Hx as (f & Hf & Hin). exists f. auto.
Qed.

(** Where the directory mode writes: a single file of a file address with
    an explicit file path goes to that very path; in every other case each
    file goes to the output directory joined with its relative path. *)
Theorem write_destinations (files : list GitHubFile) (outputDir : string)
    (parsed : ParsedGitHubUrl) (outputIsFilePath : bool) (w : World) :
  exists delta s,
    downloadFiles join dirname env files outputDir parsed outputIsFilePath w = (s, w ++ delta)
    /\ (type parsed = Blob -> length files = 1 -> outputIsFilePath = true ->
        mkdirs delta = [dirname outputDir]
        /\ Forall (fun x => fst (fst x) = outputDir) (writes delta))
    /\ (type parsed <> Blob \/ length files <> 1 \/ outputIsFilePath = false ->
        mkdirs delta
        = map (fun f => dirname (join outputDir (getRelativePath (f_path f) parsed))) files
        /\ Forall (fun x => exists f, In f files
                     /\ fst (fst x) = join outputDir (getRelativePath (f_path f) parsed))
                  (writes delta)).
Proof. exact (downloadFiles_destinations files outputDir parsed outputIsFilePath w). Qed.

End Modes.

(* ================================================================== *)
(** * Properties of [main] *)


Section MainFacts.

Variable URL : string -> option URLObject.
Variable encodeURIComponent : string -> result string.
Variable join : string -> string -> string.
Variable dirname : string -> string.
Variable env : Env.
Variable proc : Process.

(** The three ways through the first steps of [main]. *)
Lemma main_steps (url : string) (options : Options) (w : World) :
  (ghFails options proc = true ->
   main URL encodeURIComponent join dirname env proc url options w
   = (Exited 2 ["Could not get token from gh CLI. Run `gh auth login` first."], w))
  /\ (ghFails options proc = false ->
      forall m, parseGitHubUrl URL url = Throw m ->
      main URL encodeURIComponent join dirname env proc url options w
      = (Exited 2 ["  " +++ m], w))
  /\ (ghFails options proc = false ->
      forall parsed, parseGitHubUrl URL url = Ok parsed ->
      exists token,
        main URL encodeURIComponent join dirname env proc url options w
        = mainDiscover encodeURIComponent join dirname env options token parsed w).
Proof.
  unfold main, ghFails.
  destruct (negb (JS.truthy (tokenOf options proc)) && opt_gh options);
    [destruct (negb (JS.truthy (getGhCliToken proc)))|]; cbn [andb];
    (split; [intros H; try discriminate; reflexivity|]);
    (split; [intros H; try discriminate; intros m ->; reflexivity|]);
    intros H; try discriminate; intros parsed ->; eexists; reflexivity.
Qed.

(** What follows a discovery, by its result. *)
Lemma mainDiscover_steps (options : Options) (token : option string)
    (parsed : ParsedGitHubUrl) (w : World) :
  let r := getContents encodeURIComponent env parsed true w in
  match fst (fst r) with
  | Throw m =>
      mainDiscover encodeURIComponent join dirname env options token parsed w
      = (Exited 1 (discoveryErrorLines m token), snd r)
  | Ok files =>
      if length files =? 0 then
        mainDiscover encodeURIComponent join dirname env options token parsed w
        = (Exited 1 [], snd r)
      else
        mainDiscover encodeURIComponent join dirname env options token parsed w
        = mainDownload join dirname env options files (snd (fst r)) (snd r)
  end.
Proof.
  intros r. subst r. unfold mainDiscover, bind.
  destruct (getContents encodeURIComponent env parsed true w) as [[res parsed'] w1].
  cbn [fst snd]. destruct res as [files|m]; [|reflexivity].
  destruct (length files =? 0); reflexivity.
Qed.

(** A URL that does not resolve, or a gh CLI that gives no token when it is
    the only source of one, ends the run with exit code 2 before anything
    is requested or written. *)
Theorem main_stops_before_any_request (url : string) (options : Options) (w : World) :
  ghFails options proc = true \/ Fails (parseGitHubUrl URL url) ->
  exists lines,
    main URL encodeURIComponent join dirname env proc url options w = (Exited 2 lines, w).
Proof.
  destruct (main_steps url options w) as (H1 & H2 & _).
  destruct (ghFails options proc) eqn:Eg.
  - intros _. eexists. exact (H1 eq_refl).
  - intros [H | (m & Hm)]; [discriminate|]. eexists. exact (H2 eq_refl m Hm).
Qed.

(** When discovery fails or finds no file, the run ends with exit code 1
    and nothing has been downloaded, created or written. *)
Theorem main_discovery_failure_writes_nothing (url : string) (options : Options)
    (parsed : ParsedGitHubUrl) (w : World) :
  ghFails options proc = false ->
  parseGitHubUrl URL url = Ok parsed ->
  match fst (fst (getContents encodeURIComponent env parsed true w)) with
  | Ok files => files = []
  | Throw _ => True
  end ->
  exists lines delta,
    main URL encodeURIComponent join dirname env proc url options w
    = (Exited 1 lines, w ++ delta)
    /\ downloads delta = [] /\ mkdirs delta = [] /\ writes delta = []
    /\ archives delta = [].
Proof.
  intros Hg Hp Hres.
  destruct (main_steps url options w) as (_ & _ & H3).
  destruct (H3 Hg parsed Hp) as (token & ->).
  pose proof (mainDiscover_steps options token parsed w) as Hd. cbv zeta in Hd.
  destruct (getContents_history encodeURIComponent env parsed true w)
    as (delta & Hw & _ & _ & _ & D1 & D2 & D3 & _ & D5).
  destruct (fst (fst (getContents encodeURIComponent env parsed true w))) as [files|m].
  - subst files. cbn [length Nat.eqb] in Hd. rewrite Hd, Hw. eauto 10.
  - rewrite Hd, Hw. eauto 10.
Qed.


(** An API answer with status 404 makes discovery fail with a message that
    [main] reports as "not found"; one with status 403 is reported as a
    rate limit or a denial, unless its status text holds "404". *)
Theorem main_reports_404_and_403 (w : World) (url : string) (r : Response)
    (token : option string) :
  http_get env w url = Ok r -> ok r = false ->
  (status r = 404 ->
   exists m, fetchOutcome env w url = Throw m
     /\ hd "" (discoveryErrorLines m token)
        = "  Repository or path not found. Check the URL and try again.")
  /\ (status r = 403 -> JS.includes (statusText r) "404" = false ->
      exists m, fetchOutcome env w url = Throw m
        /\ hd "" (discoveryErrorLines m token) = "  Rate limit exceeded or access denied.").
Proof.
  intros Hget Hok. unfold fetchOutcome. rewrite Hget, Hok. cbn [negb].
  split.
  - intros ->. eexists. split; [reflexivity|]. reflexivity.
  - intros -> Hst. eexists. split; [reflexivity|].
    unfold discoveryErrorLines.
    assert (E : JS.includes ("GitHub API error: " +++ JS.showNat 403 +++ " " +++ statusText r)
                  "404" = JS.includes (statusText r) "404").
    { cbn. destruct (statusText r) as [|a [|b [|c s]]]; cbn; rewrite ?orb_false_r; reflexivity. }
    rewrite E, Hst. reflexivity.
Qed.

End MainFacts.

(* ================================================================== *)
(** * The further properties at concrete inputs *)

Example main_folder_to_directory :
  let '(e, tr) := main URL_model Scenario.encodePlain Scenario.joinPlain Scenario.dirnamePlain
                    (Scenario.listingEnv listingOfFolder) noProcess
                    "https://github.com/o/r/tree/main/src/" toDirectory [] in
  e = Completed
  /\ map (fun x => fst (fst x)) (writes tr) = ["out/a.ts"; "out/sub/b.ts"]
  /\ fetchedUrls tr = ["https://api.github.com/repos/o/r/git/trees/main?recursive=1"].
Proof. vm_compute. repeat split; reflexivity. Qed.

Example main_root_to_archive_without_network :
  let '(e, tr) := main URL_model Scenario.encodePlain Scenario.joinPlain Scenario.dirnamePlain
                    Scenario.offlineEnv noProcess "https://github.com/o/r" toArchive [] in
  e = Exited 1 ["  Repository or path not found. Check the URL and try again.";
                "  If this is a private repo, provide a token with --token or GITHUB_TOKEN"]
  /\ fetchedUrls tr = ["https://api.github.com/repos/o/r"]
  /\ archives tr = [].
Proof. vm_compute. repeat split; reflexivity. Qed.

Lemma parseGitHubUrl_accepts_iff_witness :
  exists a, parseGitHubUrl URL_model "https://github.com/o/r/blob/main/README.md" = Ok a.
Proof.
  apply (proj2 (parseGitHubUrl_accepts_iff URL_model
                  "https://github.com/o/r/blob/main/README.md")).
  exists {| hostname := "github.com"; pathname := "/o/r/blob/main/README.md" |}.
  split; [reflexivity|]. split; [reflexivity|]. right.
  split; [simpl; lia | right; reflexivity].
Defined.

Lemma discovery_fails_iff_witness :
  fst (fst (getContents Scenario.encodePlain Scenario.offlineEnv address_o_r true []))
  = Throw "GitHub API error: 404 Not Found".
Proof.
  apply (proj2 (discovery_fails_iff Scenario.encodePlain Scenario.offlineEnv address_o_r
                  true [] "GitHub API error: 404 Not Found")).
  left. reflexivity.
Defined.

Lemma discovery_settles_reference_witness :
  snd (fst (getContents Scenario.encodePlain (Scenario.listingEnv listingOfFolder)
              address_o_r true []))
  = withRef address_o_r (Some "main").
Proof.
  refine (proj1 (discovery_settles_reference Scenario.encodePlain
                   (Scenario.listingEnv listingOfFolder) address_o_r true [] (w1 := _) _)).
  reflexivity.
Defined.

Lemma discovery_without_path_lists_all_witness :
  fst (getContents Scenario.encodePlain (Scenario.listingEnv listingOfFolder)
         address_o_r true [])
  = (Ok (map (fileOfItem (withRef address_o_r (Some "main")))
           (filter isBlobItem listingOfFolder)),
     withRef address_o_r (Some "main")).
Proof.
  refine (discovery_without_path_lists_all Scenario.encodePlain
            (Scenario.listingEnv listingOfFolder) address_o_r true []
            (w1 := _) (data := _) eq_refl _ _ _); reflexivity.
Defined.

Lemma listing_returns_only_listed_files_witness :
  exists selected,
    fst (getTreeContents (Scenario.listingEnv listingPrefixThenFile) address_o_r_main_src
           true [])
    = Ok (map (fileOfItem address_o_r_main_src) selected)
    /\ Forall (fun it =>
                 In it listingPrefixThenFile /\ item_type it = "blob"
                 /\ forall p, path address_o_r_main_src = Some p -> p <> "" ->
                      item_path it = p \/ JS.startsWith (item_path it) (p +++ "/") = true)
              selected.
Proof.
  exact (listing_returns_only_listed_files (Scenario.listingEnv listingPrefixThenFile)
           address_o_r_main_src true []
           (data := Scenario.listingData listingPrefixThenFile) eq_refl eq_refl).
Defined.

Lemma file_at_folder_address_keeps_full_path_witness :
  getRelativePath (f_path (fileOfItem address_o_r_main_src (Scenario.fileItem "src")))
    address_o_r_main_src
  = "src".
Proof.
  apply (file_at_folder_address_keeps_full_path address_o_r_main_src (p := "src")
           (Scenario.fileItem "src")); [discriminate | reflexivity | discriminate | reflexivity].
Defined.

Lemma relative_paths_do_not_collide_witness :
  NoDup (relativePaths address_o_r_main_src
           (map (fileOfItem address_o_r_main_src) (filter (underPath "src") listingOfFolder))).
Proof.
  apply (relative_paths_do_not_collide address_o_r_main_src (p := "src") listingOfFolder);
    [reflexivity | reflexivity | discriminate |].
  repeat (constructor; [simpl; intuition discriminate|]). constructor.
Defined.

Lemma reportErrors_lists_first_five_witness :
  exists delta,
    reportErrors sevenErrors [] = (tt, [] ++ delta)
    /\ length (failedLines delta) = 5
    /\ moreLines delta = [2].
Proof.
  destruct (reportErrors_lists_first_five sevenErrors []) as (delta & H1 & _ & H3 & H4 & _).
  exists delta. auto.
Defined.

Lemma write_destinations_witness :
  exists delta s,
    downloadFiles Scenario.joinPlain Scenario.dirnamePlain secondFails [introFile] "notes.md"
      address_o_r_blob_intro true []
    = (s, [] ++ delta)
    /\ Forall (fun x => fst (fst x) = "notes.md") (writes delta).
Proof.
  destruct (write_destinations Scenario.joinPlain Scenario.dirnamePlain secondFails
              [introFile] "notes.md" address_o_r_blob_intro true [])
    as (delta & s & Hrun & Hsingle & _).
  exists delta, s. split; [exact Hrun|]. now apply Hsingle.
Defined.

Lemma main_stops_before_any_request_witness :
  exists lines,
    main URL_model Scenario.encodePlain Scenario.joinPlain Scenario.dirnamePlain
      Scenario.offlineEnv noProcess "not a url" toDirectory []
    = (Exited 2 lines, []).
Proof.
  apply main_stops_before_any_request. right. exists "Invalid URL format". reflexivity.
Defined.

Lemma main_discovery_failure_writes_nothing_witness :
  exists lines delta,
    main URL_model Scenario.encodePlain Scenario.joinPlain Scenario.dirnamePlain
      Scenario.offlineEnv noProcess "https://github.com/o/r" toDirectory []
    = (Exited 1 lines, [] ++ delta)
    /\ downloads delta = [] /\ mkdirs delta = [] /\ writes delta = []
    /\ archives delta = [].
Proof.
  apply (main_discovery_failure_writes_nothing URL_model Scenario.encodePlain
           Scenario.joinPlain Scenario.dirnamePlain Scenario.offlineEnv noProcess
           "https://github.com/o/r" toDirectory (parsed := address_o_r) []);
    [reflexivity | reflexivity | exact I].
Defined.

Lemma main_reports_404_and_403_witness :
  exists m,
    fetchOutcome Scenario.offlineEnv [] "https://api.github.com/repos/o/r" = Throw m
    /\ hd "" (discoveryErrorLines m None)
       = "  Repository or path not found. Check the URL and try again.".
Proof.
  apply (proj1 (main_reports_404_and_403 Scenario.offlineEnv []
                  "https://api.github.com/repos/o/r" (r := Scenario.notFound) None
                  eq_refl eq_refl)).
  reflexivity.
Defined.




Example main_archive_path_is_a_directory :
  main URL_model Scenario.encodePlain Scenario.joinPlain Scenario.dirnamePlain
    directoryAtZipPathEnv noProcess "https://github.com/o/r/blob/main/README.md" toArchive []
  = (Crashed "EISDIR: illegal operation on a directory, open 'out.zip'",
     [EvFetch "https://api.github.com/repos/o/r/contents/README.md?ref=main"
        (Ok (Scenario.listingData []));
      EvOnProgress 1;
      EvMkdir "." (Ok tt); EvOut OutCreatingZip; EvCreateArchive "out.zip";
      EvUncaught "EISDIR: illegal operation on a directory, open 'out.zip'"]).
Proof. reflexivity. Qed.
